(** * Deepgram streaming transcriber: a shallow embedding

    Source: [vocode/streaming/transcriber/deepgram_transcriber.py].

    Python values are modelled as the code has them: [float] is IEEE-754
    binary64 (Rocq's primitive floats compute exactly what CPython computes),
    [str] is a sequence of Unicode code points, [int] is [Z], exceptions are
    an error type and every function that can raise returns a [result].
    Session state is threaded explicitly; the two coroutines of a connection
    attempt are run one after the other (sender first), which is one of the
    schedules [asyncio.gather] admits.  What lies outside the module (the
    resampler, the Redis server, the connection to the service) is a
    parameter: a class or the events of an attempt. *)

From Stdlib Require Import List String Ascii ZArith NArith Bool Lia.
From Stdlib Require Import Strings.Byte.
From Stdlib Require Import PrimFloat Uint63 SpecFloat FloatOps.
From Equations Require Import Equations.
Import ListNotations.

Set Warnings "-inexact-float".
Local Open Scope Z_scope.

(* ===================================================================== *)
(** ** Python runtime                                                     *)
(* ===================================================================== *)

Module Py.

(** Exceptions that the modelled code can raise or let through. *)
Inductive exn : Type :=
| IndexError
| KeyError
| ValueError
| ZeroDivisionError
| JSONDecodeError
| ConnectionClosed
| ConnectFailed
| AudioopError
| DataError
| RedisConnectionError
| Exception (msg : string).

Inductive result (A : Type) : Type :=
| Ok (a : A)
| Raise (e : exn).
Arguments Ok {A} a.
Arguments Raise {A} e.

Definition is_ok {A} (r : result A) : bool :=
  match r with Ok _ => true | Raise _ => false end.

(** [str]: a sequence of code points. *)
Definition str : Type := list N.

Definition code (c : ascii) : N := N_of_ascii c.

(** A literal, written with Rocq's string notation. *)
Definition lit (s : string) : str := List.map code (list_ascii_of_string s).

Definition str_eqb (a b : str) : bool :=
  if list_eq_dec N.eq_dec a b then true else false.

(** [str.isspace] for one code point: CPython's [Py_UNICODE_ISSPACE]. *)
Definition isspace (c : N) : bool :=
  ((9 <=? c) && (c <=? 13) || (28 <=? c) && (c <=? 32)
   || (c =? 133) || (c =? 160) || (c =? 5760)
   || (8192 <=? c) && (c <=? 8202)
   || (c =? 8232) || (c =? 8233) || (c =? 8239) || (c =? 8287)
   || (c =? 12288))%N.

Fixpoint lstrip (s : str) : str :=
  match s with
  | [] => []
  | c :: rest => if isspace c then lstrip rest else s
  end.

Definition rstrip (s : str) : str := rev (lstrip (rev s)).

(** [s.strip()] *)
Definition strip (s : str) : str := rstrip (lstrip s).

(** [s[-1]]: the one-character string at the last index. *)
Definition last_char (s : str) : result str :=
  match rev s with
  | [] => Raise IndexError
  | c :: _ => Ok [c]
  end.

(** [x in xs] for a list of strings. *)
Definition str_in (x : str) (xs : list str) : bool := existsb (str_eqb x) xs.

(** The values [is_speech_final] can return: [and]/[or] hand back one of
    their operands, so the result is a [str] or a [bool]. *)
Inductive value : Type :=
| VStr (s : str)
| VBool (b : bool).

Definition truthy (v : value) : bool :=
  match v with
  | VStr [] => false
  | VStr (_ :: _) => true
  | VBool b => b
  end.

(** [a and b]: [b] is evaluated only when [a] is truthy. *)
Definition and_ (a b : result value) : result value :=
  match a with
  | Raise e => Raise e
  | Ok v => if truthy v then b else Ok v
  end.

(** [a or b]: [b] is evaluated only when [a] is falsy. *)
Definition or_ (a b : result value) : result value :=
  match a with
  | Raise e => Raise e
  | Ok v => if truthy v then Ok v else b
  end.

(** [not a] *)
Definition not_ (a : value) : value := VBool (negb (truthy a)).

(** [int] to [float]: the nearest binary64 value, ties to even, of an
    integer of either sign and of any size below the overflow threshold;
    exact up to [2^53] in magnitude. *)
Definition float_of_int (z : Z) : float :=
  SF2Prim (binary_normalize prec emax z 0 false).

(** [a > b] on floats. *)
Definition gt (a b : float) : bool := PrimFloat.ltb b a.

(** [a / b] on two ints (true division): the quotient of the two
    conversions, which is the correctly rounded quotient that Python
    computes when both operands are at most [2^53] in magnitude. *)
Definition int_truediv (a b : Z) : result float :=
  if b =? 0 then Raise ZeroDivisionError
  else Ok (PrimFloat.div (float_of_int a) (float_of_int b)).

(** [max(a, 0)]: the second argument wins only when it is greater. *)
Definition max0 (a : float) : float :=
  if gt 0%float a then 0%float else a.

End Py.
Import Py.

(* ===================================================================== *)
(** ** Configuration                                                      *)
(* ===================================================================== *)

Definition PUNCTUATION_TERMINATORS : list str := [lit "."; lit "!"; lit "?"].
Definition NUM_RESTARTS : nat := 5.

Inductive AudioEncoding : Type :=
| LINEAR16
| MULAW.

(** Modelled from the spec: the endpointing classes are imported from
    [vocode.streaming.models.transcriber], which is not part of the source
    at hand.  The spec describes a tagged variant whose time-based and
    punctuation-based members carry a silence cutoff in seconds; any other
    instance of the base class is the "unsupported variant".  The absent
    configuration ([None]) is the default policy. *)
Inductive EndpointingConfig : Type :=
| OtherEndpointingConfig
| TimeEndpointingConfig (time_cutoff_seconds : float)
| PunctuationEndpointingConfig (time_cutoff_seconds : float).

Record DeepgramTranscriberConfig : Type := {
  sampling_rate : Z;
  audio_encoding : AudioEncoding;
  downsampling : option Z;
  endpointing_config : option EndpointingConfig
}.

(* ===================================================================== *)
(** ** Recognition frames                                                 *)
(* ===================================================================== *)

Record Word : Type := { word_end : float }.

(** One decoded message of the service that carries ["is_final"]:
    [data["start"]], [data["duration"]], [data["is_final"]],
    [data["speech_final"]] and the fields of
    [data["channel"]["alternatives"][0]]. *)
Record RecognitionFrame : Type := {
  start : float;
  duration : float;
  is_final : bool;
  speech_final : bool;
  transcript : str;
  confidence : float;
  words : list Word
}.

(* ===================================================================== *)
(** ** Endpointing policy                                                 *)
(* ===================================================================== *)

(** The silence test shared by the time-based and the punctuation-based
    branch: [not transcript and current_buffer and
    (time_silent + duration) > cutoff]. *)
Definition silence_clause (current_buffer : str) (deepgram_response : RecognitionFrame)
    (time_silent cutoff : float) : result value :=
  and_ (Ok (not_ (VStr (transcript deepgram_response))))
    (and_ (Ok (VStr current_buffer))
       (Ok (VBool (gt (PrimFloat.add time_silent (duration deepgram_response)) cutoff)))).

Definition is_speech_final (cfg : DeepgramTranscriberConfig) (current_buffer : str)
    (deepgram_response : RecognitionFrame) (time_silent : float) : result value :=
  let transcript := transcript deepgram_response in
  match endpointing_config cfg with
  | None =>
      and_ (Ok (VStr transcript)) (Ok (VBool (speech_final deepgram_response)))
  | Some (TimeEndpointingConfig cutoff) =>
      silence_clause current_buffer deepgram_response time_silent cutoff
  | Some (PunctuationEndpointingConfig cutoff) =>
      or_ (and_ (Ok (VStr transcript))
             (and_ (Ok (VBool (speech_final deepgram_response)))
                (match last_char (strip transcript) with
                 | Raise e => Raise e
                 | Ok c => Ok (VBool (str_in c PUNCTUATION_TERMINATORS))
                 end)))
          (silence_clause current_buffer deepgram_response time_silent cutoff)
  | Some OtherEndpointingConfig =>
      Raise (Exception "Endpointing config not supported")
  end.

(** The caller's [if speech_final:]: the policy decides "finalize" when it
    returns a truthy value. *)
Definition finalizes (r : result value) : bool :=
  match r with
  | Ok v => truthy v
  | Raise _ => false
  end.

Definition calculate_time_silent (data : RecognitionFrame) : float :=
  let end_ := PrimFloat.add (start data) (duration data) in
  match rev (words data) with
  | w :: _ => PrimFloat.sub end_ (word_end w)
  | [] => duration data
  end.

(* ===================================================================== *)
(** ** Receiver: buffer, confidence and emitted events                    *)
(* ===================================================================== *)

Module Transcription.
Record t : Type := {
  message : str;
  confidence : float;
  is_final : bool
}.
End Transcription.

Inductive histogram : Type :=
| avg_latency_hist
| max_latency_hist
| min_latency_hist
| duration_hist.

(** One [hist.record(value)] call. *)
Definition sample : Type := (histogram * float)%type.

(** The local variables of the [receiver] coroutine.  The fragment count
    starts at 1 and is only ever incremented, hence [positive]. *)
Record receiver_locals : Type := {
  buffer : str;
  buffer_avg_confidence : float;
  num_buffer_utterances : positive;
  time_silent : float;
  transcript_cursor : float
}.

Definition receiver_init : receiver_locals :=
  {| buffer := [];
     buffer_avg_confidence := 0%float;
     num_buffer_utterances := 1%positive;
     time_silent := 0%float;
     transcript_cursor := 0%float |}.

(** Lines 233-244: the four histogram records of one frame, computed from
    the transcript cursor before and after it is moved. *)
Definition latency_samples (audio_cursor transcript_cursor : float)
    (data : RecognitionFrame) : list sample :=
  let cur_max_latency := PrimFloat.sub audio_cursor transcript_cursor in
  let transcript_cursor := PrimFloat.add (start data) (duration data) in
  let cur_min_latency := PrimFloat.sub audio_cursor transcript_cursor in
  [ (avg_latency_hist,
     PrimFloat.mul
       (PrimFloat.div (PrimFloat.add cur_min_latency cur_max_latency) 2%float)
       (duration data));
    (duration_hist, duration data);
    (max_latency_hist, cur_max_latency);
    (min_latency_hist, max0 cur_min_latency) ].

(** [top_choice["transcript"] and confidence > 0.0] *)
Definition has_speech (data : RecognitionFrame) : bool :=
  truthy (VStr (transcript data)) && gt (confidence data) 0%float.

(** Lines 253-259: the new value of [buffer_avg_confidence]. *)
Definition update_confidence (buffer_avg_confidence : float)
    (num_buffer_utterances : positive) (confidence : float) : float :=
  if PrimFloat.eqb buffer_avg_confidence 0%float then confidence
  else
    let n := float_of_int (Zpos num_buffer_utterances) in
    let n1 := float_of_int (Zpos num_buffer_utterances + 1) in
    PrimFloat.mul
      (PrimFloat.add buffer_avg_confidence (PrimFloat.div confidence n))
      (PrimFloat.div n n1).

(** Lines 251-260: a final frame with speech is appended to the buffer. *)
Definition accumulate (l : receiver_locals) (data : RecognitionFrame) : receiver_locals :=
  if has_speech data && is_final data then
    {| buffer := buffer l ++ lit " " ++ transcript data;
       buffer_avg_confidence :=
         update_confidence (buffer_avg_confidence l) (num_buffer_utterances l)
           (confidence data);
       num_buffer_utterances := Pos.succ (num_buffer_utterances l);
       time_silent := time_silent l;
       transcript_cursor := transcript_cursor l |}
  else l.

Definition with_time_silent (v : float) (l : receiver_locals) : receiver_locals :=
  {| buffer := buffer l;
     buffer_avg_confidence := buffer_avg_confidence l;
     num_buffer_utterances := num_buffer_utterances l;
     time_silent := v;
     transcript_cursor := transcript_cursor l |}.

Definition with_transcript_cursor (v : float) (l : receiver_locals) : receiver_locals :=
  {| buffer := buffer l;
     buffer_avg_confidence := buffer_avg_confidence l;
     num_buffer_utterances := num_buffer_utterances l;
     time_silent := time_silent l;
     transcript_cursor := v |}.

(** Lines 270-273. *)
Definition reset_buffer (l : receiver_locals) : receiver_locals :=
  {| buffer := [];
     buffer_avg_confidence := 0%float;
     num_buffer_utterances := 1%positive;
     time_silent := 0%float;
     transcript_cursor := transcript_cursor l |}.

(** Lines 246-284: the endpointing decision is taken on the buffer and the
    silence as they were before this frame; then the buffer is extended and
    one of the three branches runs.  Returns the new locals and what was put
    on the output queue. *)
Definition handle_frame (cfg : DeepgramTranscriberConfig) (l : receiver_locals)
    (data : RecognitionFrame) : result (receiver_locals * list Transcription.t) :=
  match is_speech_final cfg (buffer l) data (time_silent l) with
  | Raise e => Raise e
  | Ok speech_final =>
      let l1 := accumulate l data in
      if truthy speech_final then
        Ok (reset_buffer l1,
            [ {| Transcription.message := buffer l1;
                 Transcription.confidence := buffer_avg_confidence l1;
                 Transcription.is_final := true |} ])
      else if has_speech data then
        Ok (with_time_silent (calculate_time_silent data) l1,
            [ {| Transcription.message := buffer l1;
                 Transcription.confidence := confidence data;
                 Transcription.is_final := false |} ])
      else
        Ok (with_time_silent (PrimFloat.add (time_silent l1) (duration data)) l1, [])
  end.

(** What [ws.recv()] followed by [json.loads] can yield. *)
Inductive wire_message : Type :=
| Undecodable                       (* text that [json.loads] rejects *)
| NoIsFinal                         (* an object without ["is_final"] *)
| MissingStart                      (* ["is_final"] present, ["start"] absent *)
| Recognition (data : RecognitionFrame).

Inductive recv_event : Type :=
| RecvRaises                        (* [ws.recv()] raises *)
| Message (m : wire_message).

Record receiver_output : Type := {
  final_locals : receiver_locals;
  recorded : list sample;
  emitted : list Transcription.t;
  receiver_result : result unit
}.

Definition receiver_stop (l : receiver_locals) (r : result unit) : receiver_output :=
  {| final_locals := l; recorded := []; emitted := []; receiver_result := r |}.

(** Lines 222-285.  The events the connection will deliver are given as a
    list; once it is used up the peer has closed the connection and
    [ws.recv()] raises [ConnectionClosed], which the loop catches. *)
Fixpoint receiver_loop (cfg : DeepgramTranscriberConfig) (ended : bool)
    (audio_cursor : float) (inbound : list recv_event) (l : receiver_locals)
    : receiver_output :=
  if ended then receiver_stop l (Ok tt) else
  match inbound with
  | [] => receiver_stop l (Ok tt)
  | RecvRaises :: _ => receiver_stop l (Ok tt)
  | Message Undecodable :: _ => receiver_stop l (Raise JSONDecodeError)
  | Message NoIsFinal :: _ => receiver_stop l (Ok tt)
  | Message MissingStart :: _ => receiver_stop l (Raise KeyError)
  | Message (Recognition data) :: rest =>
      let samples := latency_samples audio_cursor (transcript_cursor l) data in
      let l0 := with_transcript_cursor (PrimFloat.add (start data) (duration data)) l in
      match handle_frame cfg l0 data with
      | Raise e =>
          {| final_locals := l0; recorded := samples; emitted := [];
             receiver_result := Raise e |}
      | Ok (l', out) =>
          let o := receiver_loop cfg ended audio_cursor rest l' in
          {| final_locals := final_locals o;
             recorded := samples ++ recorded o;
             emitted := out ++ emitted o;
             receiver_result := receiver_result o |}
      end
  end.

Definition receiver (cfg : DeepgramTranscriberConfig) (ended : bool)
    (audio_cursor : float) (inbound : list recv_event) : receiver_output :=
  receiver_loop cfg ended audio_cursor inbound receiver_init.

(* ===================================================================== *)
(** ** Session state, [send_audio] and [terminate]                        *)
(* ===================================================================== *)

(** What travels through the input queue and over the socket: raw [bytes]
    (mu-law chunks), a NumPy [int16] array (linear-PCM chunks after
    [np.frombuffer]) or a [str] (the control message). *)
Inductive queue_item : Type :=
| Bytes (b : list byte)
| Int16Array (a : list Z)
| Text (s : str).

(** [len(data)] *)
Definition len (data : queue_item) : Z :=
  match data with
  | Bytes b => Z.of_nat (List.length b)
  | Int16Array a => Z.of_nat (List.length a)
  | Text s => Z.of_nat (List.length s)
  end.

Definition int16_of_bytes (lo hi : byte) : Z :=
  let u := Z.of_N (Byte.to_N lo) + 256 * Z.of_N (Byte.to_N hi) in
  if u <? 32768 then u else u - 65536.

(** [np.frombuffer(chunk, dtype=np.int16)]: one element per two bytes
    (little-endian host); a buffer of odd size is rejected. *)
Fixpoint frombuffer_int16 (chunk : list byte) : result (list Z) :=
  match chunk with
  | [] => Ok []
  | [_] => Raise ValueError
  | lo :: hi :: rest =>
      match frombuffer_int16 rest with
      | Ok a => Ok (int16_of_bytes lo hi :: a)
      | Raise e => Raise e
      end
  end.

(** [audioop.ratecv(fragment, width, nchannels, inrate, outrate, None)[0]],
    a function of the C library that the module calls. *)
Class Audioop : Type := {
  ratecv : list byte -> Z -> Z -> Z -> Z -> result (list byte)
}.

(** The base class [BaseAsyncTranscriber] is imported, not defined here: its
    own state is a parameter, with [super().terminate()] acting on it. *)
Class BaseAsyncTranscriber (B : Type) : Type := {
  base_terminate : B -> B
}.

Record session (B : Type) : Type := {
  transcriber_config : DeepgramTranscriberConfig;
  _ended : bool;
  audio_cursor : float;
  input_queue : list queue_item;
  output_queue : list Transcription.t;
  published : list queue_item;      (* what [redis_client.publish] has published *)
  histograms : list sample;         (* [hist.record] calls *)
  connect_calls : nat;              (* [websockets.connect] calls *)
  wire_sent : list queue_item;      (* [ws.send] calls that went through *)
  base : B
}.
Arguments transcriber_config {B} s.
Arguments _ended {B} s.
Arguments audio_cursor {B} s.
Arguments input_queue {B} s.
Arguments output_queue {B} s.
Arguments published {B} s.
Arguments histograms {B} s.
Arguments connect_calls {B} s.
Arguments wire_sent {B} s.
Arguments base {B} s.

(** The state [__init__] leaves behind. *)
Definition new_session {B} (cfg : DeepgramTranscriberConfig) (b : B) : session B :=
  {| transcriber_config := cfg; _ended := false; audio_cursor := 0%float;
     input_queue := []; output_queue := []; published := []; histograms := [];
     connect_calls := 0%nat; wire_sent := []; base := b |}.

(** [self.input_queue.put_nowait(item)] *)
Definition put_nowait {B} (item : queue_item) (s : session B) : session B :=
  {| transcriber_config := transcriber_config s; _ended := _ended s;
     audio_cursor := audio_cursor s;
     input_queue := input_queue s ++ [item];
     output_queue := output_queue s; published := published s;
     histograms := histograms s; connect_calls := connect_calls s;
     wire_sent := wire_sent s; base := base s |}.

(** The record of a message that [redis_client.publish] has published. *)
Definition publish {B} (item : queue_item) (s : session B) : session B :=
  {| transcriber_config := transcriber_config s; _ended := _ended s;
     audio_cursor := audio_cursor s; input_queue := input_queue s;
     output_queue := output_queue s;
     published := published s ++ [item];
     histograms := histograms s; connect_calls := connect_calls s;
     wire_sent := wire_sent s; base := base s |}.

Definition set_ended {B} (s : session B) : session B :=
  {| transcriber_config := transcriber_config s; _ended := true;
     audio_cursor := audio_cursor s; input_queue := input_queue s;
     output_queue := output_queue s; published := published s;
     histograms := histograms s; connect_calls := connect_calls s;
     wire_sent := wire_sent s; base := base s |}.

Definition with_base {B} (b : B) (s : session B) : session B :=
  {| transcriber_config := transcriber_config s; _ended := _ended s;
     audio_cursor := audio_cursor s; input_queue := input_queue s;
     output_queue := output_queue s; published := published s;
     histograms := histograms s; connect_calls := connect_calls s;
     wire_sent := wire_sent s; base := b |}.

(** Modelled from the spec: [BaseAsyncTranscriber.send_audio] is not in the
    source at hand; the spec has the producer's chunks enqueued into the
    input queue, which is what this does. *)
Definition base_send_audio {B} (chunk : queue_item) (s : session B) : session B :=
  put_nowait chunk s.

(** [if self.transcriber_config.downsampling:] *)
Definition downsampling_factor (cfg : DeepgramTranscriberConfig) : option Z :=
  match downsampling cfg with
  | Some d => if d =? 0 then None else Some d
  | None => None
  end.

(** Lines 96-107: what [send_audio] turns the caller's bytes into. *)
Definition convert_chunk `{Audioop} (cfg : DeepgramTranscriberConfig)
    (chunk : list byte) : result queue_item :=
  match audio_encoding cfg with
  | LINEAR16 =>
      let resampled :=
        match downsampling_factor cfg with
        | Some d => ratecv chunk 2 1 (sampling_rate cfg * d) (sampling_rate cfg)
        | None => Ok chunk
        end in
      match resampled with
      | Raise e => Raise e
      | Ok chunk =>
          match frombuffer_int16 chunk with
          | Raise e => Raise e
          | Ok a => Ok (Int16Array a)
          end
      end
  | MULAW => Ok (Bytes chunk)
  end.

(** The Redis server behind [redis_client]: what taking a connection to it
    does, and what it does with a message that has been encoded. *)
Class Redis : Type := {
  redis_connect : result unit;
  redis_deliver : result unit
}.

(** [redis_client.publish(channel, message)]: the client takes a
    connection, which raises when the server cannot be reached; it then
    encodes the message, and its encoder takes [bytes], [str], [int] and
    [float] only, so that a NumPy array raises [DataError]; the encoded
    message is then delivered. *)
Definition redis_publish `{Redis} (message : queue_item) : result unit :=
  match redis_connect with
  | Raise e => Raise e
  | Ok _ =>
      match message with
      | Int16Array _ => Raise DataError
      | Bytes _ | Text _ => redis_deliver
      end
  end.

(** Lines 93-111: the chunk is converted, published (line 109) and only
    then handed to the base class; an exception of either of the first two
    steps leaves the session as it was. *)
Definition send_audio `{Audioop} `{Redis} {B} (chunk : list byte) (s : session B)
    : session B * result unit :=
  match convert_chunk (transcriber_config s) chunk with
  | Raise e => (s, Raise e)
  | Ok item =>
      match redis_publish item with
      | Raise e => (s, Raise e)
      | Ok _ => (base_send_audio item (publish item s), Ok tt)
      end
  end.

Definition dquote : str := [34%N].

(** [json.dumps] of a one-entry dict of strings without special
    characters: [{"key": "value"}]. *)
Definition json_dumps_pair (key value : string) : str :=
  lit "{" ++ dquote ++ lit key ++ dquote ++ lit ": "
    ++ dquote ++ lit value ++ dquote ++ lit "}".

Definition terminate_msg : str := json_dumps_pair "type" "CloseStream".

Definition terminate {B} `{BaseAsyncTranscriber B} (s : session B) : session B :=
  let s := put_nowait (Text terminate_msg) s in
  let s := set_ended s in
  with_base (base_terminate (base s)) s.

(* ===================================================================== *)
(** ** One connection attempt: [process]                                  *)
(* ===================================================================== *)

(** What the outside world does during one connection attempt. *)
Record attempt : Type := {
  connect_ok : bool;                (* does [websockets.connect] succeed *)
  send_failure : option nat;        (* which [ws.send] of the attempt raises *)
  inbound : list recv_event;        (* what [ws.recv] delivers *)
  client_terminates : bool          (* the client calls [terminate()] once
                                       the pair of coroutines has ended *)
}.

Record sender_output : Type := {
  cursor_after : float;
  queue_after : list queue_item;
  sent : list queue_item;
  sender_result : result unit
}.

(** [ws.send(data)] as the [k]-th send of the attempt. *)
Definition ws_send (send_failure : option nat) (k : nat) : result unit :=
  match send_failure with
  | Some j => if Nat.eqb j k then Raise ConnectionClosed else Ok tt
  | None => Ok tt
  end.

(** Lines 201-213.  An empty queue is the 5-second timeout of
    [asyncio.wait_for], which leaves the loop. *)
Fixpoint sender_loop (cfg : DeepgramTranscriberConfig) (ended : bool)
    (send_failure : option nat) (k : nat) (queue : list queue_item)
    (audio_cursor : float) : sender_output :=
  let stop q r :=
    {| cursor_after := audio_cursor; queue_after := q; sent := [];
       sender_result := r |} in
  if ended then stop queue (Ok tt) else
  match queue with
  | [] => stop [] (Ok tt)
  | data :: rest =>
      let num_channels := 1 in
      let sample_width := 2 in
      match int_truediv (len data) (sampling_rate cfg * num_channels * sample_width) with
      | Raise e => stop rest (Raise e)
      | Ok seconds =>
          let audio_cursor := PrimFloat.add audio_cursor seconds in
          match ws_send send_failure k with
          | Raise e =>
              {| cursor_after := audio_cursor; queue_after := rest; sent := [];
                 sender_result := Raise e |}
          | Ok _ =>
              let o := sender_loop cfg ended send_failure (S k) rest audio_cursor in
              {| cursor_after := cursor_after o; queue_after := queue_after o;
                 sent := data :: sent o; sender_result := sender_result o |}
          end
      end
  end.

Definition sender (cfg : DeepgramTranscriberConfig) (ended : bool)
    (send_failure : option nat) (queue : list queue_item) (audio_cursor : float)
    : sender_output :=
  sender_loop cfg ended send_failure 0%nat queue audio_cursor.

(** [asyncio.gather(sender(ws), receiver(ws))]: an exception of either
    coroutine is raised to the caller. *)
Definition gather (a b : result unit) : result unit :=
  match a with
  | Raise e => Raise e
  | Ok _ => b
  end.

(** Lines 192-198 and 287.  The cursor is reset and the connection opened;
    nothing catches a failure of [websockets.connect]. *)
Definition process {B} (w : attempt) (s : session B) : session B * result unit :=
  let opening :=
    {| transcriber_config := transcriber_config s; _ended := _ended s;
       audio_cursor := 0%float; input_queue := input_queue s;
       output_queue := output_queue s; published := published s;
       histograms := histograms s; connect_calls := S (connect_calls s);
       wire_sent := wire_sent s; base := base s |} in
  if connect_ok w then
    let cfg := transcriber_config s in
    let so := sender cfg (_ended s) (send_failure w) (input_queue s) 0%float in
    let ro := receiver cfg (_ended s) (cursor_after so) (inbound w) in
    ({| transcriber_config := cfg; _ended := _ended s;
        audio_cursor := cursor_after so; input_queue := queue_after so;
        output_queue := output_queue s ++ emitted ro;
        published := published s;
        histograms := histograms s ++ recorded ro;
        connect_calls := S (connect_calls s);
        wire_sent := wire_sent s ++ sent so; base := base s |},
     gather (sender_result so) (receiver_result ro))
  else (opening, Raise ConnectFailed).

(* ===================================================================== *)
(** ** Session supervisor: [_run_loop]                                    *)
(* ===================================================================== *)

(** The client's move between two iterations. *)
Definition client_step {B} `{BaseAsyncTranscriber B} (w : attempt) (s : session B)
    : session B :=
  if client_terminates w then terminate s else s.

(** Lines 86-91: the loop from a given value of [restarts]; [world k] is
    what happens during the attempt made with [restarts = k]. *)
Equations? run_loop_from {B} `{BaseAsyncTranscriber B} (world : nat -> attempt)
    (restarts : nat) (s : session B) : session B * result unit
    by wf (NUM_RESTARTS - restarts)%nat lt :=
  run_loop_from world restarts s with _ended s, lt_dec restarts NUM_RESTARTS => {
    | false, left _ with process (world restarts) s => {
        | (s', Raise e) := (s', Raise e);
        | (s', Ok _) := run_loop_from world (S restarts) (client_step (world restarts) s') };
    | _, _ := (s, Ok tt) }.
Proof.
  unfold NUM_RESTARTS in *.
  do 5 (destruct restarts as [|restarts]; [lia|]); lia.
Qed.

Definition _run_loop {B} `{BaseAsyncTranscriber B} (world : nat -> attempt)
    (s : session B) : session B * result unit :=
  run_loop_from world 0%nat s.


(* ===================================================================== *)
(** ** Reference notions used to state the properties                     *)
(* ===================================================================== *)

(** The last character of a string that is not whitespace, if any. *)
Fixpoint last_non_space (s : str) : option N :=
  match s with
  | [] => None
  | c :: rest =>
      match last_non_space rest with
      | Some d => Some d
      | None => if isspace c then None else Some c
      end
  end.

(** The sentence terminators, as characters. *)
Definition terminator_chars : list N := [code "."; code "!"; code "?"].

(** The silence condition of the time-based policy. *)
Definition silence_exceeded (buffer_text : str) (frame : RecognitionFrame)
    (silence cutoff : float) : Prop :=
  transcript frame = [] /\ buffer_text <> [] /\
  gt (PrimFloat.add silence (duration frame)) cutoff = true.

(** The weighted confidence as the formula alone defines it: a fold over the
    confidences of the fragments, from the value and the count at hand. *)
Fixpoint weighted_confidence (avg : float) (n : positive) (confidences : list float)
    : float * positive :=
  match confidences with
  | [] => (avg, n)
  | c :: rest =>
      let avg' :=
        if PrimFloat.eqb avg 0%float then c
        else PrimFloat.mul
               (PrimFloat.add avg (PrimFloat.div c (float_of_int (Zpos n))))
               (PrimFloat.div (float_of_int (Zpos n)) (float_of_int (Zpos n + 1))) in
      weighted_confidence avg' (Pos.succ n) rest
  end.

(** The confidences that reach the buffer: those of final frames with a
    non-empty transcript and a positive confidence. *)
Definition fragment_confidences (frames : list RecognitionFrame) : list float :=
  List.map confidence (List.filter (fun f => has_speech f && is_final f) frames).

(** A frame on which the endpointing policy of [cfg] returns a value. *)
Definition policy_accepts (cfg : DeepgramTranscriberConfig) (f : RecognitionFrame) : bool :=
  match endpointing_config cfg with
  | None => true
  | Some (TimeEndpointingConfig _) => true
  | Some (PunctuationEndpointingConfig _) =>
      match transcript f with
      | [] => true
      | _ :: _ =>
          negb (speech_final f) ||
          match last_non_space (transcript f) with Some _ => true | None => false end
      end
  | Some OtherEndpointingConfig => false
  end.



(** The session after the first [k] iterations of the run loop, when none of
    them raises. *)
Fixpoint session_after {B} `{BaseAsyncTranscriber B} (world : nat -> attempt)
    (k : nat) (s : session B) : session B :=
  match k with
  | O => s
  | S k' =>
      let s' := session_after world k' s in
      client_step (world k') (fst (process (world k') s'))
  end.

(* ===================================================================== *)
(** ** Concrete inputs                                                    *)
(* ===================================================================== *)

#[local] Instance unit_base : BaseAsyncTranscriber unit :=
  {| base_terminate := fun u => u |}.

#[local] Instance no_resampling : Audioop :=
  {| ratecv := fun fragment _ _ _ _ => Ok fragment |}.

(** 16 kHz, 16-bit linear PCM, no downsampling, default endpointing. *)
Definition cfg_default : DeepgramTranscriberConfig :=
  {| sampling_rate := 16000; audio_encoding := LINEAR16; downsampling := None;
     endpointing_config := None |}.

Definition cfg_time (cutoff : float) : DeepgramTranscriberConfig :=
  {| sampling_rate := 16000; audio_encoding := LINEAR16; downsampling := None;
     endpointing_config := Some (TimeEndpointingConfig cutoff) |}.

Definition cfg_punctuation (cutoff : float) : DeepgramTranscriberConfig :=
  {| sampling_rate := 16000; audio_encoding := LINEAR16; downsampling := None;
     endpointing_config := Some (PunctuationEndpointingConfig cutoff) |}.

Definition frame_of (text : string) (conf : float) (final speech : bool)
    : RecognitionFrame :=
  {| start := 0%float; duration := 1%float; is_final := final;
     speech_final := speech; transcript := lit text; confidence := conf;
     words := [] |}.

Definition hello_frame : RecognitionFrame := frame_of "hello world" 0.95%float true true.

(** 3200 bytes of silence. *)
Definition chunk_3200 : list byte := repeat x00 3200.

Definition s0 : session unit := new_session cfg_default tt.

(** The connection opens and is closed by the peer at once. *)
Definition dropped : attempt :=
  {| connect_ok := true; send_failure := None; inbound := [];
     client_terminates := false |}.

(** [websockets.connect] raises. *)
Definition refused : attempt :=
  {| connect_ok := false; send_failure := None; inbound := [];
     client_terminates := false |}.




(* ===================================================================== *)
(** ** Construction                                                       *)
(* ===================================================================== *)

Definition api_key_missing : string :=
  "Please set DEEPGRAM_API_KEY environment variable or pass it as a parameter".

(** Truthiness of an [Optional[str]]: [None] and the empty string are
    falsy. *)
Definition opt_truthy (k : option str) : bool :=
  match k with
  | Some (_ :: _) => true
  | _ => false
  end.

(** Lines 67-82.  [getenv_key] is what [getenv("DEEPGRAM_API_KEY")] returns
    and [b] the state [super().__init__] leaves; the result is the key kept
    in [self.api_key] and the new session. *)
Definition __init__ {B} (cfg : DeepgramTranscriberConfig)
    (api_key getenv_key : option str) (b : B) : result (option str * session B) :=
  let api_key := if opt_truthy api_key then api_key else getenv_key in
  if negb (opt_truthy api_key) then Raise (Exception api_key_missing)
  else Ok (api_key, new_session cfg b).

(* ===================================================================== *)
(** ** Reference definitions for the sender and the receiver              *)
(* ===================================================================== *)

(** Line 208: the cursor after one more queue item has been booked. *)
Definition booked (cfg : DeepgramTranscriberConfig) (cursor : float)
    (data : queue_item) : float :=
  PrimFloat.add cursor
    (PrimFloat.div (float_of_int (len data))
       (float_of_int (sampling_rate cfg * 1 * 2))).

(** A list that has only been appended to. *)
Definition grown_from {A} (before after : list A) : Prop :=
  exists more, after = before ++ more.

(** The events on which the receiver leaves its loop without looking at
    the next one. *)
Definition stops_receiver (e : recv_event) : bool :=
  match e with
  | Message (Recognition _) => false
  | _ => true
  end.

(** The frames at the head of a stream of events: those the receiver
    reaches, unless one of them makes it raise. *)
Fixpoint leading_frames (inbound : list recv_event) : list RecognitionFrame :=
  match inbound with
  | Message (Recognition f) :: rest => f :: leading_frames rest
  | _ => []
  end.

(** The histograms one frame records into, in the order of the calls. *)
Definition frame_histograms : list histogram :=
  [avg_latency_hist; duration_hist; max_latency_hist; min_latency_hist].

(** A buffer or message that is empty or begins with the joining space. *)
Definition space_led (s : str) : Prop :=
  s = [] \/ exists rest, s = code " " :: rest.

Definition recognitions (frames : list RecognitionFrame) : list recv_event :=
  List.map (fun f => Message (Recognition f)) frames.

(** A sample of a NumPy [int16] array. *)
Definition is_int16 (x : Z) : Prop := -32768 <= x < 32768.

(* ===================================================================== *)
(** ** Further inputs and notions                                         *)
(* ===================================================================== *)

Definition cfg_zero_rate_session : session unit :=
  put_nowait (Bytes [x00])
    (new_session {| sampling_rate := 0; audio_encoding := MULAW;
                    downsampling := None; endpointing_config := None |} tt).

(** A resampler that always fails. *)
Definition failing_resampling : Audioop :=
  {| ratecv := fun _ _ _ _ _ => Raise AudioopError |}.

(** 8 kHz mu-law with a downsampling factor configured. *)
Definition cfg_mulaw : DeepgramTranscriberConfig :=
  {| sampling_rate := 8000; audio_encoding := MULAW; downsampling := Some 2;
     endpointing_config := None |}.




(** A Redis server that takes every message. *)
Definition redis_up : Redis :=
  {| redis_connect := Ok tt; redis_deliver := Ok tt |}.

(** No Redis server can be reached. *)
Definition redis_down : Redis :=
  {| redis_connect := Raise RedisConnectionError; redis_deliver := Ok tt |}.

(** A mu-law session into which [send_audio] has put two chunks, of two
    and of three bytes. *)
Definition s_mulaw_with_audio : session unit :=
  fst (@send_audio no_resampling redis_up unit [x03; x04; x05]
         (fst (@send_audio no_resampling redis_up unit [x00; x01]
                 (new_session cfg_mulaw tt)))).

(** The same session after a first connection has sent the two chunks and
    has been dropped, and [send_audio] has put a third chunk, of eight
    bytes. *)
Definition s_mulaw_second_round : session unit :=
  fst (@send_audio no_resampling redis_up unit
         [x06; x07; x08; x09; x0a; x0b; x0c; x0d]
         (fst (process dropped s_mulaw_with_audio))).

Definition silent_frame (seconds : float) : RecognitionFrame :=
  {| start := 0%float; duration := seconds; is_final := true;
     speech_final := true; transcript := []; confidence := 0%float;
     words := [] |}.

(** A final frame whose transcript is a single blank. *)
Definition blank_frame : RecognitionFrame := frame_of " " 0.9%float true true.

(** The service answers with a blank final transcript. *)
Definition answers_blank : attempt :=
  {| connect_ok := true; send_failure := None;
     inbound := [Message (Recognition blank_frame)];
     client_terminates := false |}.

Definition s0_punctuation : session unit := new_session (cfg_punctuation 1%float) tt.

(** The world in which the first connection is dropped and the second one
    refused. *)
Definition dropped_then_refused (k : nat) : attempt :=
  match k with
  | O => dropped
  | _ => refused
  end.

(** The connection is dropped and the client then terminates. *)
Definition hangs_up : attempt :=
  {| connect_ok := true; send_failure := None; inbound := [];
     client_terminates := true |}.

(** The world in which the client terminates after the second attempt. *)
Definition terminates_after_two (k : nat) : attempt :=
  match k with
  | 1%nat => hangs_up
  | _ => dropped
  end.

(** What a run may do to the session's logs: append to the output queue, to
    the messages sent and to the histogram records, and nothing else. *)
Definition only_appended {B} (s s' : session B) : Prop :=
  grown_from (output_queue s) (output_queue s') /\
  grown_from (wire_sent s) (wire_sent s') /\
  grown_from (histograms s) (histograms s') /\
  published s' = published s /\
  transcriber_config s' = transcriber_config s.

(** The text the fragments of [frames] add to the buffer: each final frame
    with speech contributes a space and its transcript. *)
Definition joined_fragments (frames : list RecognitionFrame) : str :=
  flat_map (fun f => lit " " ++ transcript f)
    (List.filter (fun f => has_speech f && is_final f) frames).

(** An interim frame whose last word ends a quarter of a second before the
    frame does. *)
Definition interim_frame : RecognitionFrame :=
  {| start := 0%float; duration := 1%float; is_final := false;
     speech_final := false; transcript := lit "hello"; confidence := 0.5%float;
     words := [ {| word_end := 0.25%float |}; {| word_end := 0.75%float |} ] |}.

(* ===================================================================== *)
(** ** Strings                                                            *)
(* ===================================================================== *)

Section StringFacts.

Let non_space (c : N) : bool := negb (isspace c).

Lemma find_app_first (f : N -> bool) (l1 l2 : list N) :
  find f (l1 ++ l2) =
  match find f l1 with Some x => Some x | None => find f l2 end.
Proof.
  induction l1 as [|x l1 IH]; simpl; [reflexivity|].
  destruct (f x); [reflexivity | exact IH].
Qed.

Lemma lstrip_head (s : str) :
  match lstrip s with [] => None | c :: _ => Some c end = find non_space s.
Proof.
  induction s as [|c s IH]; simpl; [reflexivity|].
  unfold non_space at 1. destruct (isspace c); simpl; [exact IH | reflexivity].
Qed.

Lemma find_rev_lstrip (s : str) :
  find non_space (rev (lstrip s)) = find non_space (rev s).
Proof.
  induction s as [|c s IH]; simpl; [reflexivity|].
  destruct (isspace c) eqn:Hc; [|reflexivity].
  rewrite IH, find_app_first. simpl. unfold non_space at 3. rewrite Hc. simpl.
  destruct (find non_space (rev s)); reflexivity.
Qed.

Lemma find_rev_last_non_space (s : str) :
  find non_space (rev s) = last_non_space s.
Proof.
  induction s as [|c s IH]; simpl; [reflexivity|].
  rewrite find_app_first, IH. simpl. unfold non_space.
  destruct (last_non_space s); [reflexivity|].
  destruct (isspace c); reflexivity.
Qed.

(** [s.strip()[-1]] is the last non-whitespace character of [s], and an
    [IndexError] when there is none. *)
Lemma last_char_strip (s : str) :
  last_char (strip s) =
  match last_non_space s with
  | Some c => Ok [c]
  | None => Raise IndexError
  end.
Proof.
  unfold last_char, strip, rstrip. rewrite rev_involutive.
  pose proof (lstrip_head (rev (lstrip s))) as H.
  rewrite find_rev_lstrip, find_rev_last_non_space in H.
  destruct (lstrip (rev (lstrip s))); rewrite <- H; reflexivity.
Qed.

Lemma blank_has_no_last_char (s : str) :
  forallb isspace s = true -> last_non_space s = None.
Proof.
  induction s as [|c s IH]; simpl; [reflexivity|].
  intros H. apply andb_true_iff in H. destruct H as [Hc Hs].
  rewrite (IH Hs), Hc. reflexivity.
Qed.

End StringFacts.

Lemma str_eqb_eq (a b : str) : str_eqb a b = true <-> a = b.
Proof.
  unfold str_eqb. destruct (list_eq_dec N.eq_dec a b); split; congruence.
Qed.

Lemma terminator_membership (c : N) :
  str_in [c] PUNCTUATION_TERMINATORS = true <-> In c terminator_chars.
Proof.
  unfold str_in, PUNCTUATION_TERMINATORS, terminator_chars. simpl.
  rewrite !orb_true_iff, !str_eqb_eq. unfold lit, code; simpl.
  split.
  - intros [H|[H|[H|H]]]; try discriminate; inversion H; auto.
  - intros [H|[H|[H|[]]]]; subst; auto.
Qed.

(* ===================================================================== *)
(** ** Endpointing policy                                                 *)
(* ===================================================================== *)

Lemma truthy_str (s : str) : truthy (VStr s) = true <-> s <> [].
Proof. destruct s; simpl; split; congruence. Qed.

Lemma silence_clause_ok (b : str) (f : RecognitionFrame) (t c : float) :
  is_ok (silence_clause b f t c) = true.
Proof.
  unfold silence_clause, and_, not_. simpl.
  destruct (transcript f); simpl; [|reflexivity].
  destruct b; reflexivity.
Qed.

Lemma silence_clause_finalizes (b : str) (f : RecognitionFrame) (t c : float) :
  finalizes (silence_clause b f t c) = true <-> silence_exceeded b f t c.
Proof.
  unfold silence_clause, silence_exceeded, and_, not_, finalizes. simpl.
  destruct (transcript f) as [|x tr]; simpl.
  - destruct b as [|y b]; simpl.
    + split; [discriminate | intros (_ & H & _); congruence].
    + split; [intros H; repeat split; [discriminate | exact H] | intros (_ & _ & H); exact H].
  - split; [discriminate | intros (H & _); discriminate].
Qed.

(** C4.  Without an endpointing configuration the policy always returns, and
    it decides to finalize exactly when the frame's top transcript is
    non-empty and the frame's [speech_final] flag is set, whatever the buffer
    and the accumulated silence. *)
Theorem default_policy_finalize_iff (cfg : DeepgramTranscriberConfig)
    (buffer_text : str) (frame : RecognitionFrame) (silence : float) :
  endpointing_config cfg = None ->
  is_ok (is_speech_final cfg buffer_text frame silence) = true /\
  (finalizes (is_speech_final cfg buffer_text frame silence) = true <->
   transcript frame <> [] /\ speech_final frame = true).
Proof.
  intros Hcfg. unfold is_speech_final. rewrite Hcfg. unfold and_, finalizes.
  destruct (transcript frame) as [|c tr]; simpl.
  - split; [reflexivity|]. split; [discriminate | intros [H _]; congruence].
  - split; [reflexivity|]. split; [intros H; split; [discriminate | exact H] | tauto].
Qed.

Lemma default_policy_finalize_iff_witness :
  finalizes (is_speech_final cfg_default [] hello_frame 0%float) = true.
Proof.
  apply (proj2 (default_policy_finalize_iff cfg_default [] hello_frame 0%float eq_refl)).
  split; [discriminate | reflexivity].
Defined.

(** C5.  With a time-based configuration the policy always returns, and it
    decides to finalize exactly when the frame's top transcript is empty, the
    buffer is non-empty and the accumulated silence plus the frame's duration
    is strictly greater than the cutoff. *)
Theorem time_policy_finalize_iff (cfg : DeepgramTranscriberConfig) (cutoff : float)
    (buffer_text : str) (frame : RecognitionFrame) (silence : float) :
  endpointing_config cfg = Some (TimeEndpointingConfig cutoff) ->
  is_ok (is_speech_final cfg buffer_text frame silence) = true /\
  (finalizes (is_speech_final cfg buffer_text frame silence) = true <->
   transcript frame = [] /\ buffer_text <> [] /\
   gt (PrimFloat.add silence (duration frame)) cutoff = true).
Proof.
  intros Hcfg. unfold is_speech_final. rewrite Hcfg. split.
  - apply silence_clause_ok.
  - apply silence_clause_finalizes.
Qed.

Lemma time_policy_finalize_iff_witness :
  finalizes
    (is_speech_final (cfg_time 1%float) (lit " so") (frame_of "" 0%float true false)
       0.6%float) = true.
Proof.
  apply (proj2 (time_policy_finalize_iff (cfg_time 1%float) 1%float (lit " so")
                  (frame_of "" 0%float true false) 0.6%float eq_refl)).
  split; [reflexivity | split; [discriminate | vm_compute; reflexivity]].
Defined.

(** The first disjunct of the punctuation-based branch, on a frame with a
    non-empty transcript and the [speech_final] flag set. *)
Lemma punctuation_clause (tr : str) :
  match last_char (strip tr) with
  | Raise e => Raise e
  | Ok c => Ok (VBool (str_in c PUNCTUATION_TERMINATORS))
  end =
  match last_non_space tr with
  | Some c => Ok (VBool (str_in [c] PUNCTUATION_TERMINATORS))
  | None => Raise IndexError
  end.
Proof. rewrite last_char_strip. destruct (last_non_space tr); reflexivity. Qed.

(** C6.  With a punctuation-based configuration the policy decides to
    finalize exactly when either the frame's [speech_final] flag is set, its
    top transcript is non-empty and the last non-whitespace character of the
    transcript is one of [.], [!], [?], or the top transcript is empty, the
    buffer is non-empty and the accumulated silence plus the frame's duration
    exceeds the cutoff. *)
Theorem punctuation_policy_finalize_iff (cfg : DeepgramTranscriberConfig)
    (cutoff : float) (buffer_text : str) (frame : RecognitionFrame) (silence : float) :
  endpointing_config cfg = Some (PunctuationEndpointingConfig cutoff) ->
  finalizes (is_speech_final cfg buffer_text frame silence) = true <->
  (speech_final frame = true /\ transcript frame <> [] /\
   exists c, last_non_space (transcript frame) = Some c /\ In c terminator_chars)
  \/
  (transcript frame = [] /\ buffer_text <> [] /\
   gt (PrimFloat.add silence (duration frame)) cutoff = true).
Proof.
  intros Hcfg. unfold is_speech_final. rewrite Hcfg.
  pose proof (silence_clause_finalizes buffer_text frame silence cutoff) as Hs.
  unfold silence_exceeded in Hs.
  destruct (transcript frame) as [|x tr] eqn:Htr.
  - (* empty transcript: the first disjunct is the empty string *)
    unfold or_, and_ at 1. simpl truthy. cbv iota. rewrite Hs. split.
    + intros H. right. exact H.
    + intros [(_ & H & _) | H]; [congruence | exact H].
  - (* non-empty transcript: the silence clause is False *)
    assert (Hno : finalizes (silence_clause buffer_text frame silence cutoff) = false).
    { destruct (finalizes (silence_clause buffer_text frame silence cutoff)) eqn:E;
        [|reflexivity].
      destruct (proj1 Hs eq_refl) as (E' & _). discriminate. }
    assert (Hok : exists v, silence_clause buffer_text frame silence cutoff = Ok v
                            /\ truthy v = false).
    { pose proof (silence_clause_ok buffer_text frame silence cutoff) as Hok.
      destruct (silence_clause buffer_text frame silence cutoff) as [v|e];
        [|discriminate].
      exists v. split; [reflexivity | exact Hno]. }
    destruct Hok as (v & Hv & Hvf). rewrite Hv.
    unfold and_ at 1. simpl truthy. cbv iota.
    destruct (speech_final frame) eqn:Hsf.
    + unfold and_ at 1. simpl truthy. cbv iota.
      rewrite punctuation_clause.
      destruct (last_non_space (x :: tr)) as [c|] eqn:Hc.
      * unfold or_, finalizes.
        destruct (str_in [c] PUNCTUATION_TERMINATORS) eqn:Hin; simpl.
        -- split; [|reflexivity]. intros _. left.
           split; [reflexivity|]. split; [discriminate|].
           exists c. split; [reflexivity|]. apply terminator_membership. exact Hin.
        -- rewrite Hvf. split; [discriminate|].
           intros [(_ & _ & c' & Hc' & Hin') | (H & _)]; [|discriminate].
           inversion Hc'; subst c'. apply terminator_membership in Hin'. congruence.
      * unfold or_, finalizes. split; [discriminate|].
        intros [(_ & _ & c' & Hc' & _) | (H & _)]; discriminate.
    + unfold and_, or_, finalizes. simpl. rewrite Hvf. split; [discriminate|].
      intros [(H & _) | (H & _)]; discriminate.
Qed.

Lemma punctuation_policy_finalize_iff_witness :
  finalizes
    (is_speech_final (cfg_punctuation 1%float) []
       (frame_of "Is that so?  " 0.9%float true true) 0%float) = true.
Proof.
  apply (proj2 (punctuation_policy_finalize_iff (cfg_punctuation 1%float) 1%float []
                  (frame_of "Is that so?  " 0.9%float true true) 0%float eq_refl)).
  left. split; [reflexivity|]. split; [discriminate|].
  exists (code "?"). split; [reflexivity|]. right. right. left. reflexivity.
Defined.

(** C10.  The punctuation-based policy is partial: on a frame whose
    [speech_final] flag is set and whose top transcript is non-empty but made
    of whitespace only, it raises [IndexError] instead of returning. *)
Theorem punctuation_policy_raises_on_blank (cfg : DeepgramTranscriberConfig)
    (cutoff : float) (buffer_text : str) (frame : RecognitionFrame) (silence : float) :
  endpointing_config cfg = Some (PunctuationEndpointingConfig cutoff) ->
  speech_final frame = true ->
  transcript frame <> [] ->
  forallb isspace (transcript frame) = true ->
  is_speech_final cfg buffer_text frame silence = Raise IndexError.
Proof.
  intros Hcfg Hsf Hne Hblank. unfold is_speech_final. rewrite Hcfg, Hsf.
  rewrite punctuation_clause, (blank_has_no_last_char _ Hblank).
  destruct (transcript frame); [congruence | reflexivity].
Qed.

Lemma punctuation_policy_raises_on_blank_witness :
  is_speech_final (cfg_punctuation 1%float) (lit " hello")
    (frame_of " " 0%float true true) 0%float = Raise IndexError.
Proof.
  apply (punctuation_policy_raises_on_blank (cfg_punctuation 1%float) 1%float).
  - reflexivity.
  - reflexivity.
  - discriminate.
  - reflexivity.
Defined.

(* ===================================================================== *)
(** ** Receiver                                                           *)
(* ===================================================================== *)

(** C9.  Under the default policy, a receiver that gets the single frame
    [{transcript: "hello world", confidence: 0.95, is_final: true,
    speech_final: true}] puts exactly one transcription on the output queue,
    with message [" hello world"], confidence 0.95 and [is_final] set, and
    ends with an empty buffer, a zero weighted confidence, the fragment
    count back at its initial value and no accumulated silence. *)
Theorem hello_world_is_emitted_once (cfg : DeepgramTranscriberConfig)
    (data : RecognitionFrame) (audio_cursor : float) :
  endpointing_config cfg = None ->
  transcript data = lit "hello world" ->
  confidence data = 0.95%float ->
  is_final data = true ->
  speech_final data = true ->
  let o := receiver cfg false audio_cursor [Message (Recognition data)] in
  emitted o =
    [ {| Transcription.message := lit " hello world";
         Transcription.confidence := 0.95%float;
         Transcription.is_final := true |} ] /\
  receiver_result o = Ok tt /\
  buffer (final_locals o) = [] /\
  buffer_avg_confidence (final_locals o) = 0%float /\
  num_buffer_utterances (final_locals o) = 1%positive /\
  time_silent (final_locals o) = 0%float.
Proof.
  intros Hcfg Htr Hconf Hfin Hsf.
  destruct cfg as [rate enc down ep]. simpl in Hcfg. subst ep.
  destruct data as [st du fin sf tr conf ws]. simpl in Htr, Hconf, Hfin, Hsf.
  subst tr conf fin sf.
  unfold receiver, receiver_loop, handle_frame, is_speech_final, accumulate,
    has_speech, update_confidence. simpl.
  repeat split; reflexivity.
Qed.

Lemma hello_world_is_emitted_once_witness :
  List.map Transcription.message
    (emitted (receiver cfg_default false 0%float [Message (Recognition hello_frame)]))
  = [lit " hello world"].
Proof.
  rewrite (proj1 (hello_world_is_emitted_once cfg_default hello_frame 0%float
                    eq_refl eq_refl eq_refl eq_refl eq_refl)).
  reflexivity.
Defined.

Lemma accumulate_confidence (l : receiver_locals) (f : RecognitionFrame) :
  (buffer_avg_confidence (accumulate l f), num_buffer_utterances (accumulate l f)) =
  weighted_confidence (buffer_avg_confidence l) (num_buffer_utterances l)
    (fragment_confidences [f]).
Proof.
  unfold accumulate, fragment_confidences. simpl.
  destruct (has_speech f && is_final f); reflexivity.
Qed.

Lemma handle_frame_without_finalize (cfg : DeepgramTranscriberConfig)
    (l l' : receiver_locals) (f : RecognitionFrame) (out : list Transcription.t) :
  handle_frame cfg l f = Ok (l', out) ->
  forallb (fun t => negb (Transcription.is_final t)) out = true ->
  buffer_avg_confidence l' = buffer_avg_confidence (accumulate l f) /\
  num_buffer_utterances l' = num_buffer_utterances (accumulate l f).
Proof.
  unfold handle_frame. intros H Hout.
  destruct (is_speech_final cfg (buffer l) f (time_silent l)) as [v|e]; [|discriminate].
  destruct (truthy v).
  - inversion H; subst. discriminate.
  - destruct (has_speech f); inversion H; subst; split; reflexivity.
Qed.

Lemma fragment_confidences_cons (f : RecognitionFrame) (fs : list RecognitionFrame) :
  fragment_confidences (f :: fs) = fragment_confidences [f] ++ fragment_confidences fs.
Proof.
  unfold fragment_confidences. simpl.
  destruct (has_speech f && is_final f); reflexivity.
Qed.

Lemma weighted_confidence_app (a : float) (n : positive) (cs ds : list float) :
  weighted_confidence a n (cs ++ ds) =
  weighted_confidence (fst (weighted_confidence a n cs))
    (snd (weighted_confidence a n cs)) ds.
Proof.
  revert a n. induction cs as [|c cs IH]; intros a n; simpl; [reflexivity|].
  apply IH.
Qed.

(** C7.  As long as no frame makes the policy finalize, the weighted
    confidence and the fragment count the receiver ends with are those the
    formula yields from the values it started with and the confidences of
    the final frames that carry speech, in order: each such frame replaces
    the value [old] by [(old + confidence / n) * (n / (n + 1))], or by
    [confidence] when [old] is zero, and increments [n]; nothing else (the
    policy, the cursors, the silence, the other frames) has an influence. *)
Theorem confidence_follows_formula (cfg : DeepgramTranscriberConfig)
    (audio_cursor : float) (frames : list RecognitionFrame) (l : receiver_locals) :
  let o := receiver_loop cfg false audio_cursor
             (List.map (fun f => Message (Recognition f)) frames) l in
  receiver_result o = Ok tt ->
  forallb (fun t => negb (Transcription.is_final t)) (emitted o) = true ->
  (buffer_avg_confidence (final_locals o), num_buffer_utterances (final_locals o)) =
  weighted_confidence (buffer_avg_confidence l) (num_buffer_utterances l)
    (fragment_confidences frames).
Proof.
  revert l. induction frames as [|f fs IH]; intros l; simpl.
  - intros _ _. reflexivity.
  - set (l0 := with_transcript_cursor (PrimFloat.add (start f) (duration f)) l).
    destruct (handle_frame cfg l0 f) as [[l' out]|e] eqn:Hh; simpl.
    + intros Hres Hem. rewrite forallb_app in Hem.
      apply andb_true_iff in Hem. destruct Hem as [Hout Hrest].
      destruct (handle_frame_without_finalize _ _ _ _ _ Hh Hout) as [Ha Hn].
      specialize (IH l' Hres Hrest). simpl in IH. rewrite IH.
      rewrite fragment_confidences_cons, weighted_confidence_app.
      pose proof (accumulate_confidence l0 f) as Hacc.
      change (buffer_avg_confidence l0) with (buffer_avg_confidence l) in Hacc.
      change (num_buffer_utterances l0) with (num_buffer_utterances l) in Hacc.
      rewrite <- Hacc. simpl. rewrite Ha, Hn. reflexivity.
    + intros Hres. discriminate.
Qed.

Lemma confidence_follows_formula_witness :
  buffer_avg_confidence
    (final_locals
       (receiver_loop cfg_default false 0%float
          (List.map (fun f => Message (Recognition f))
             [frame_of "one" 0.9%float true false;
              frame_of "two" 0.8%float true false;
              frame_of "three" 0.7%float true false])
          receiver_init))
  = fst (weighted_confidence 0%float 1%positive [0.9%float; 0.8%float; 0.7%float]).
Proof.
  exact (f_equal fst
           (confidence_follows_formula cfg_default 0%float
              [frame_of "one" 0.9%float true false;
               frame_of "two" 0.8%float true false;
               frame_of "three" 0.7%float true false]
              receiver_init eq_refl eq_refl)).
Defined.

(* ===================================================================== *)
(** ** [send_audio], the sender and the audio cursor                      *)
(* ===================================================================== *)

Lemma frombuffer_int16_length (k : nat) :
  forall chunk : list byte,
    List.length chunk = (2 * k)%nat ->
    exists a, frombuffer_int16 chunk = Ok a /\ List.length a = k.
Proof.
  induction k as [|k IH]; intros chunk Hlen.
  - destruct chunk; [|discriminate]. exists []. split; reflexivity.
  - destruct chunk as [|lo [|hi rest]]; simpl in Hlen; try lia.
    destruct (IH rest ltac:(lia)) as (a & Ha & Hl).
    exists (int16_of_bytes lo hi :: a). simpl. rewrite Ha, Hl. split; reflexivity.
Qed.

(** The Redis client never publishes a NumPy array. *)
Lemma redis_publish_array `{Redis} (a : list Z) :
  redis_publish (Int16Array a) =
  match redis_connect with
  | Raise e => Raise e
  | Ok _ => Raise DataError
  end.
Proof. unfold redis_publish. destruct redis_connect; reflexivity. Qed.

(** With linear PCM [send_audio] always raises and leaves the session as it
    was: what the conversion returns is a NumPy array, which line 109
    cannot publish. *)
Lemma send_audio_linear16_raises `{Audioop} `{Redis} {B} (chunk : list byte)
    (s : session B) :
  audio_encoding (transcriber_config s) = LINEAR16 ->
  fst (send_audio chunk s) = s /\ is_ok (snd (send_audio chunk s)) = false.
Proof.
  intros Henc. unfold send_audio, convert_chunk. rewrite Henc.
  destruct (match downsampling_factor (transcriber_config s) with
            | Some d => _
            | None => _
            end) as [resampled|e]; [|split; reflexivity].
  destruct (frombuffer_int16 resampled) as [a|e]; [|split; reflexivity].
  rewrite redis_publish_array.
  destruct redis_connect; split; reflexivity.
Qed.

(** A chunk of linear PCM with an even number of bytes and no downsampling,
    with a Redis server within reach: line 109 raises [DataError]. *)
Lemma send_audio_linear16_data_error `{Audioop} `{Redis} {B} (chunk : list byte)
    (k : nat) (s : session B) :
  audio_encoding (transcriber_config s) = LINEAR16 ->
  downsampling (transcriber_config s) = None ->
  List.length chunk = (2 * k)%nat ->
  redis_connect = Ok tt ->
  send_audio chunk s = (s, Raise DataError).
Proof.
  intros Henc Hdown Hlen Hup.
  destruct (frombuffer_int16_length k chunk Hlen) as (a & Ha & _).
  unfold send_audio, convert_chunk, downsampling_factor.
  rewrite Henc, Hdown, Ha, redis_publish_array, Hup. reflexivity.
Qed.

(** C2 (what the code does).  Three chunks of 3200 bytes of 16 kHz mono
    16-bit linear PCM, no downsampling: each call of [send_audio] raises,
    whatever the state of the Redis server at that call (with the server
    within reach it is [DataError], raised at line 109 for the NumPy array
    the chunk has been turned into), and enqueues nothing.  The input queue
    stays empty, so that a connection attempt, whatever happens in it, sends
    nothing and leaves the audio cursor at 0.0, not at 0.3. *)
Theorem three_chunks_leave_cursor_short `{Audioop} (R1 R2 R3 : Redis)
    (c1 c2 c3 : list byte) (w : attempt) :
  List.length c1 = 3200%nat ->
  List.length c2 = 3200%nat ->
  List.length c3 = 3200%nat ->
  let r1 := @send_audio _ R1 unit c1 s0 in
  let r2 := @send_audio _ R2 unit c2 (fst r1) in
  let r3 := @send_audio _ R3 unit c3 (fst r2) in
  let s' := fst (process w (fst r3)) in
  (is_ok (snd r1) = false /\ is_ok (snd r2) = false /\ is_ok (snd r3) = false) /\
  (@redis_connect R1 = Ok tt -> snd r1 = Raise DataError) /\
  (@redis_connect R2 = Ok tt -> snd r2 = Raise DataError) /\
  (@redis_connect R3 = Ok tt -> snd r3 = Raise DataError) /\
  input_queue (fst r3) = [] /\
  wire_sent s' = [] /\
  audio_cursor s' = 0%float /\
  PrimFloat.eqb (audio_cursor s') 0.3%float = false.
Proof.
  intros H1 H2 H3. cbv zeta.
  destruct (@send_audio_linear16_raises _ R1 unit c1 s0 eq_refl) as [S1 F1].
  rewrite S1.
  destruct (@send_audio_linear16_raises _ R2 unit c2 s0 eq_refl) as [S2 F2].
  rewrite S2.
  destruct (@send_audio_linear16_raises _ R3 unit c3 s0 eq_refl) as [S3 F3].
  rewrite S3.
  split; [repeat split; assumption|].
  split; [intros Hup; rewrite (@send_audio_linear16_data_error _ R1 unit c1 1600 s0
                                 eq_refl eq_refl H1 Hup); reflexivity|].
  split; [intros Hup; rewrite (@send_audio_linear16_data_error _ R2 unit c2 1600 s0
                                 eq_refl eq_refl H2 Hup); reflexivity|].
  split; [intros Hup; rewrite (@send_audio_linear16_data_error _ R3 unit c3 1600 s0
                                 eq_refl eq_refl H3 Hup); reflexivity|].
  split; [reflexivity|].
  unfold process. destruct (connect_ok w); repeat split; reflexivity.
Qed.

Lemma three_chunks_leave_cursor_short_witness :
  snd (@send_audio no_resampling redis_up unit chunk_3200 s0) = Raise DataError /\
  audio_cursor
    (fst (process dropped
       (fst (@send_audio no_resampling redis_up unit chunk_3200
          (fst (@send_audio no_resampling redis_up unit chunk_3200
             (fst (@send_audio no_resampling redis_up unit chunk_3200 s0))))))))
  = 0%float.
Proof.
  pose proof (@three_chunks_leave_cursor_short no_resampling redis_up redis_up redis_up
                chunk_3200 chunk_3200 chunk_3200 dropped eq_refl eq_refl eq_refl)
    as (_ & D1 & _ & _ & _ & _ & C & _).
  split; [exact (D1 eq_refl) | exact C].
Defined.

(* ===================================================================== *)
(** ** [terminate]                                                        *)
(* ===================================================================== *)

(** C1 (as amended).  Every call of [terminate] sets the termination flag
    and appends one close-stream message to the input queue, whatever the
    flag was: after two calls the flag is set and the queue has grown by two
    close-stream messages. *)
Theorem terminate_enqueues_on_every_call {B} `{BaseAsyncTranscriber B} (s : session B) :
  _ended (terminate s) = true /\
  input_queue (terminate s) = input_queue s ++ [Text terminate_msg] /\
  _ended (terminate (terminate s)) = true /\
  input_queue (terminate (terminate s)) =
    input_queue s ++ [Text terminate_msg; Text terminate_msg].
Proof.
  unfold terminate.
  cbn [with_base set_ended put_nowait _ended input_queue].
  rewrite <- app_assoc. repeat split; reflexivity.
Qed.

(** C1 (as stated) fails: on a fresh session the second call enqueues a
    second close-stream message, so two calls do not leave the state one
    call leaves. *)
Lemma terminate_twice_differs :
  input_queue (terminate s0) = [Text terminate_msg] /\
  input_queue (terminate (terminate s0)) = [Text terminate_msg; Text terminate_msg] /\
  terminate (terminate s0) <> terminate s0.
Proof.
  split; [reflexivity|]. split; [reflexivity|].
  intros H. apply (f_equal (fun s => List.length (input_queue s))) in H.
  vm_compute in H. discriminate.
Qed.

(* ===================================================================== *)
(** ** [process] and [_run_loop]                                          *)
(* ===================================================================== *)

(** The loop as the [while] statement reads. *)
Lemma run_loop_from_while {B} `{BaseAsyncTranscriber B} (world : nat -> attempt)
    (restarts : nat) (s : session B) :
  run_loop_from world restarts s =
  if negb (_ended s) && (restarts <? NUM_RESTARTS)%nat then
    match process (world restarts) s with
    | (s', Raise e) => (s', Raise e)
    | (s', Ok _) => run_loop_from world (S restarts) (client_step (world restarts) s')
    end
  else (s, Ok tt).
Proof.
  simp run_loop_from.
  destruct (_ended s) eqn:He; simpl.
  - destruct (lt_dec restarts NUM_RESTARTS); reflexivity.
  - destruct (lt_dec restarts NUM_RESTARTS) as [Hlt|Hge]; simpl.
    + rewrite (proj2 (Nat.ltb_lt _ _) Hlt).
      destruct (process (world restarts) s) as [s' [u|e]]; simpl; reflexivity.
    + destruct (Nat.ltb_spec restarts NUM_RESTARTS); [contradiction|reflexivity].
Qed.

Lemma process_connect_calls {B} (w : attempt) (s : session B) :
  connect_calls (fst (process w s)) = S (connect_calls s).
Proof. unfold process. destruct (connect_ok w); reflexivity. Qed.


Lemma client_step_connect_calls {B} `{BaseAsyncTranscriber B} (w : attempt)
    (s : session B) :
  connect_calls (client_step w s) = connect_calls s.
Proof. unfold client_step. destruct (client_terminates w); reflexivity. Qed.



Lemma policy_accepts_ok (cfg : DeepgramTranscriberConfig) (f : RecognitionFrame)
    (b : str) (t : float) :
  policy_accepts cfg f = true -> is_ok (is_speech_final cfg b f t) = true.
Proof.
  unfold policy_accepts, is_speech_final.
  destruct (endpointing_config cfg) as [[|c|c]|]; intros Hacc.
  - discriminate.
  - apply silence_clause_ok.
  - pose proof (silence_clause_ok b f t c) as Hs.
    revert Hacc. destruct (transcript f) as [|x tr] eqn:Htr; intros Hacc.
    + unfold or_, and_ at 1. simpl. exact Hs.
    + unfold and_ at 1. simpl truthy. cbv iota.
      destruct (speech_final f); simpl negb in Hacc; cbn [orb] in Hacc.
      * unfold and_ at 1. simpl truthy. cbv iota. rewrite punctuation_clause.
        destruct (last_non_space (x :: tr)); [|discriminate].
        unfold or_. destruct (truthy _); [reflexivity | exact Hs].
      * unfold and_, or_. simpl. exact Hs.
  - unfold and_. destruct (transcript f); reflexivity.
Qed.




Lemma session_after_connect_calls {B} `{BaseAsyncTranscriber B} (world : nat -> attempt)
    (k : nat) (s : session B) :
  connect_calls (session_after world k s) = (connect_calls s + k)%nat.
Proof.
  induction k as [|k IH]; simpl; [lia|].
  rewrite client_step_connect_calls, process_connect_calls, IH. lia.
Qed.



(** The loop never opens more connections than its budget has left. *)
Lemma run_loop_from_bound {B} `{BaseAsyncTranscriber B} (world : nat -> attempt) :
  forall (n restarts : nat) (s : session B),
    (NUM_RESTARTS - restarts = n)%nat ->
    (connect_calls (fst (run_loop_from world restarts s))
     <= connect_calls s + n)%nat.
Proof.
  induction n as [|n IH]; intros restarts s Hn; rewrite run_loop_from_while.
  - destruct (Nat.ltb_spec restarts NUM_RESTARTS) as [Hlt|Hge]; [lia|].
    rewrite andb_false_r. simpl. lia.
  - destruct (negb (_ended s) && (restarts <? NUM_RESTARTS)%nat); [|simpl; lia].
    pose proof (process_connect_calls (world restarts) s) as Hc.
    destruct (process (world restarts) s) as [s' [u|e]]; simpl in Hc |- *.
    + specialize (IH (S restarts) (client_step (world restarts) s') ltac:(lia)).
      rewrite client_step_connect_calls, Hc in IH. lia.
    + lia.
Qed.

(** With the flag set the loop stops at once, at any iteration. *)
Lemma run_loop_from_ended {B} `{BaseAsyncTranscriber B} (world : nat -> attempt)
    (restarts : nat) (s : session B) :
  _ended s = true -> run_loop_from world restarts s = (s, Ok tt).
Proof. intros He. rewrite run_loop_from_while, He. reflexivity. Qed.

(** When every remaining iteration finds the flag unset and its attempt
    returns, the loop runs to the end of its budget. *)
Lemma run_loop_from_completes {B} `{BaseAsyncTranscriber B} (world : nat -> attempt)
    (s : session B) :
  forall n restarts : nat,
    (restarts + n = NUM_RESTARTS)%nat ->
    (forall k, (restarts <= k < NUM_RESTARTS)%nat ->
       _ended (session_after world k s) = false /\
       snd (process (world k) (session_after world k s)) = Ok tt) ->
    run_loop_from world restarts (session_after world restarts s)
    = (session_after world NUM_RESTARTS s, Ok tt).
Proof.
  induction n as [|n IH]; intros restarts Hn Hrun; rewrite run_loop_from_while.
  - replace restarts with NUM_RESTARTS by lia.
    rewrite Nat.ltb_irrefl, andb_false_r. reflexivity.
  - destruct (Hrun restarts ltac:(lia)) as [He Hp].
    rewrite He, (proj2 (Nat.ltb_lt restarts NUM_RESTARTS)) by lia. simpl.
    pose proof (IH (S restarts) ltac:(lia)) as IH'. simpl in IH'.
    destruct (process (world restarts) (session_after world restarts s)) as [s' r].
    simpl in Hp, IH'. subst r. apply IH'.
    intros k Hk. apply Hrun. lia.
Qed.

(** What the world would do in a sixth attempt has no influence. *)
Lemma run_loop_from_ignores_later {B} `{BaseAsyncTranscriber B}
    (world world' : nat -> attempt) :
  (forall k, (k < NUM_RESTARTS)%nat -> world' k = world k) ->
  forall (n restarts : nat) (s : session B),
    (NUM_RESTARTS - restarts = n)%nat ->
    run_loop_from world' restarts s = run_loop_from world restarts s.
Proof.
  intros Hsame. induction n as [|n IH]; intros restarts s Hn;
    rewrite (run_loop_from_while world'), (run_loop_from_while world).
  - destruct (Nat.ltb_spec restarts NUM_RESTARTS) as [Hlt|Hge]; [lia|].
    rewrite andb_false_r. reflexivity.
  - destruct (Nat.ltb_spec restarts NUM_RESTARTS) as [Hlt|Hge].
    + rewrite (Hsame restarts Hlt).
      destruct (negb (_ended s)); [|reflexivity]. simpl.
      destruct (process (world restarts) s) as [s' [u|e]]; [|reflexivity].
      apply IH. lia.
    + rewrite andb_false_r. reflexivity.
Qed.

(** C8.  The supervisor never opens more than 5 connections; with the
    termination flag set before an iteration it makes no further attempt;
    when the flag is unset at each of five iterations and each of the five
    attempts ends, it has made exactly 5 attempts and stops without raising;
    and what would happen in a sixth attempt has no influence on the run. *)
Theorem run_loop_attempt_budget {B} `{BaseAsyncTranscriber B} (world : nat -> attempt)
    (s : session B) :
  (connect_calls (fst (_run_loop world s)) <= connect_calls s + 5)%nat /\
  (forall restarts, _ended s = true -> run_loop_from world restarts s = (s, Ok tt)) /\
  ((forall k, (k < 5)%nat ->
      _ended (session_after world k s) = false /\
      snd (process (world k) (session_after world k s)) = Ok tt) ->
   snd (_run_loop world s) = Ok tt /\
   connect_calls (fst (_run_loop world s)) = (connect_calls s + 5)%nat) /\
  (forall world', (forall k, (k < 5)%nat -> world' k = world k) ->
     _run_loop world' s = _run_loop world s).
Proof.
  split; [|split; [|split]].
  - apply (run_loop_from_bound world 5 0 s). reflexivity.
  - intros restarts He. apply run_loop_from_ended. exact He.
  - intros Hrun. unfold _run_loop.
    pose proof (run_loop_from_completes world s 5 0 eq_refl) as Hc.
    change (session_after world 0 s) with s in Hc. rewrite Hc.
    + split; [reflexivity|]. cbn [fst]. apply (session_after_connect_calls world 5 s).
    + intros k Hk. apply Hrun. unfold NUM_RESTARTS in Hk. lia.
  - intros world' Hsame. unfold _run_loop.
    apply (run_loop_from_ignores_later world world' Hsame 5 0 s). reflexivity.
Qed.

Lemma run_loop_attempt_budget_witness :
  snd (_run_loop (fun _ => dropped) s0) = Ok tt /\
  connect_calls (fst (_run_loop (fun _ => dropped) s0)) = 5%nat.
Proof.
  apply (proj1 (proj2 (proj2 (run_loop_attempt_budget (fun _ => dropped) s0)))).
  intros k Hk.
  do 5 (destruct k as [|k]; [split; reflexivity|]). lia.
Defined.


Lemma int_truediv_ok (a b : Z) :
  b <> 0 ->
  int_truediv a b = Ok (PrimFloat.div (float_of_int a) (float_of_int b)).
Proof.
  intros Hb. unfold int_truediv.
  destruct (Z.eqb_spec b 0) as [E|_]; [contradiction | reflexivity].
Qed.

Lemma sender_loop_failed_send (cfg : DeepgramTranscriberConfig)
    (data : queue_item) (post : list queue_item) :
  sampling_rate cfg <> 0 ->
  forall (pre : list queue_item) (k : nat) (cursor : float),
    sender_loop cfg false (Some (k + List.length pre)%nat) k (pre ++ data :: post) cursor =
    {| cursor_after := fold_left (booked cfg) (pre ++ [data]) cursor;
       queue_after := post; sent := pre; sender_result := Raise ConnectionClosed |}.
Proof.
  intros Hrate. induction pre as [|x pre IH]; intros k cursor.
  - cbn [app List.length sender_loop fold_left].
    rewrite int_truediv_ok by lia. unfold ws_send.
    rewrite Nat.add_0_r, Nat.eqb_refl. reflexivity.
  - cbn [app List.length sender_loop fold_left].
    rewrite int_truediv_ok by lia. unfold ws_send.
    destruct (Nat.eqb_spec (k + S (List.length pre)) k) as [E|_]; [lia|].
    replace (k + S (List.length pre))%nat with (S k + List.length pre)%nat by lia.
    rewrite IH. reflexivity.
Qed.

(** The loop skips over attempts that end without the flag being set. *)
Lemma run_loop_from_prefix {B} `{BaseAsyncTranscriber B} (world : nat -> attempt)
    (s : session B) (k : nat) :
  (k <= NUM_RESTARTS)%nat ->
  (forall j, (j < k)%nat ->
     _ended (session_after world j s) = false /\
     snd (process (world j) (session_after world j s)) = Ok tt) ->
  forall n restarts : nat,
    (restarts + n = k)%nat ->
    run_loop_from world restarts (session_after world restarts s) =
    run_loop_from world k (session_after world k s).
Proof.
  intros Hk Hrun. induction n as [|n IH]; intros restarts Hn.
  - replace restarts with k by lia. reflexivity.
  - rewrite (run_loop_from_while world restarts).
    destruct (Hrun restarts ltac:(lia)) as [He Hp].
    rewrite He, (proj2 (Nat.ltb_lt restarts NUM_RESTARTS)) by lia.
    cbn [negb andb].
    pose proof (IH (S restarts) ltac:(lia)) as IH'. cbn [session_after] in IH'.
    destruct (process (world restarts) (session_after world restarts s)) as [s' r].
    cbn [snd fst] in Hp, IH'. subst r. exact IH'.
Qed.







(* ===================================================================== *)
(** ** The sender                                                         *)
(* ===================================================================== *)

(** A sender whose sends all go through empties the queue in order. *)
Lemma sender_loop_drains (cfg : DeepgramTranscriberConfig) (queue : list queue_item) :
  sampling_rate cfg <> 0 ->
  forall (k : nat) (cursor : float),
    sender_loop cfg false None k queue cursor =
    {| cursor_after := fold_left (booked cfg) queue cursor; queue_after := [];
       sent := queue; sender_result := Ok tt |}.
Proof.
  intros Hrate. induction queue as [|data rest IH]; intros k cursor.
  - reflexivity.
  - cbn [sender_loop ws_send fold_left].
    rewrite int_truediv_ok by lia. rewrite IH. reflexivity.
Qed.

(** X5.  On a session that is not terminated, with a positive sampling
    rate, an attempt whose connection opens and whose sends all go through
    sends the whole input queue in order and leaves it empty; the audio
    cursor restarts from zero, whatever it was, and ends as the sum, taken
    left to right, of [len(item) / (sampling_rate * 1 * 2)] over the items
    sent. *)
Theorem process_drains_queue_in_order {B} (w : attempt) (s : session B) :
  connect_ok w = true ->
  send_failure w = None ->
  _ended s = false ->
  0 < sampling_rate (transcriber_config s) ->
  let s' := fst (process w s) in
  wire_sent s' = wire_sent s ++ input_queue s /\
  input_queue s' = [] /\
  audio_cursor s' = fold_left (booked (transcriber_config s)) (input_queue s) 0%float.
Proof.
  intros Hc Hf He Hrate. unfold process. rewrite Hc, Hf, He.
  unfold sender. rewrite sender_loop_drains by lia.
  cbn [fst wire_sent input_queue audio_cursor cursor_after queue_after sent].
  repeat split; reflexivity.
Qed.

Lemma process_drains_queue_in_order_witness :
  wire_sent (fst (process dropped s_mulaw_with_audio))
    = [Bytes [x00; x01]; Bytes [x03; x04; x05]] /\
  input_queue (fst (process dropped s_mulaw_with_audio)) = [] /\
  audio_cursor s_mulaw_second_round = 0.0003125%float /\
  audio_cursor (fst (process dropped s_mulaw_second_round)) = 0.0005%float.
Proof.
  destruct (process_drains_queue_in_order dropped s_mulaw_with_audio
              eq_refl eq_refl eq_refl eq_refl) as (Hsent & Hqueue & _).
  destruct (process_drains_queue_in_order dropped s_mulaw_second_round
              eq_refl eq_refl eq_refl eq_refl) as (_ & _ & Hcursor).
  split; [rewrite Hsent; reflexivity|].
  split; [exact Hqueue|].
  split; [vm_compute; reflexivity|].
  rewrite Hcursor. vm_compute. reflexivity.
Defined.

(** X6.  When the send of a chunk raises, the sender stops with that
    exception: the chunks before it have been sent, the chunks after it are
    still queued, and the chunk itself is lost: it has left the queue and
    has been counted in the audio cursor, but was not sent. *)
Theorem failed_send_loses_its_chunk (cfg : DeepgramTranscriberConfig)
    (pre : list queue_item) (data : queue_item) (post : list queue_item)
    (cursor : float) :
  0 < sampling_rate cfg ->
  sender cfg false (Some (List.length pre)) (pre ++ data :: post) cursor =
  {| cursor_after := fold_left (booked cfg) (pre ++ [data]) cursor;
     queue_after := post; sent := pre; sender_result := Raise ConnectionClosed |}.
Proof.
  intros Hrate. unfold sender.
  apply (sender_loop_failed_send cfg data post ltac:(lia) pre 0%nat cursor).
Qed.

Lemma failed_send_loses_its_chunk_witness :
  queue_after (sender cfg_default false (Some 1%nat)
                 [Bytes [x00]; Bytes [x01]; Bytes [x02]] 0%float) = [Bytes [x02]].
Proof.
  exact (f_equal queue_after
           (failed_send_loses_its_chunk cfg_default [Bytes [x00]] (Bytes [x01])
              [Bytes [x02]] 0%float eq_refl)).
Defined.

(** X7.  With a sampling rate of zero and audio waiting in the input
    queue, the first attempt whose connection opens raises
    [ZeroDivisionError] out of the run loop: the first chunk is taken from
    the queue, nothing is sent and no second attempt is made. *)
Theorem zero_sampling_rate_ends_the_run {B} `{BaseAsyncTranscriber B}
    (world : nat -> attempt) (s : session B) (data : queue_item)
    (rest : list queue_item) :
  _ended s = false ->
  sampling_rate (transcriber_config s) = 0 ->
  input_queue s = data :: rest ->
  connect_ok (world 0%nat) = true ->
  let s' := fst (_run_loop world s) in
  snd (_run_loop world s) = Raise ZeroDivisionError /\
  connect_calls s' = S (connect_calls s) /\
  wire_sent s' = wire_sent s /\
  input_queue s' = rest.
Proof.
  intros He Hrate Hq Hc. unfold _run_loop.
  rewrite run_loop_from_while, He.
  change (negb false && (0 <? NUM_RESTARTS)%nat) with true. cbv iota.
  unfold process. rewrite Hc, He, Hq. unfold sender.
  cbn [sender_loop]. unfold int_truediv. rewrite Hrate.
  change (0 * 1 * 2 =? 0) with true. cbv iota.
  cbn [sender_result gather fst snd connect_calls wire_sent input_queue
       sent queue_after cursor_after].
  rewrite app_nil_r. repeat split; reflexivity.
Qed.

Lemma zero_sampling_rate_ends_the_run_witness :
  snd (_run_loop (fun _ => dropped) cfg_zero_rate_session) = Raise ZeroDivisionError.
Proof.
  exact (proj1 (zero_sampling_rate_ends_the_run (fun _ => dropped)
                  cfg_zero_rate_session (Bytes [x00]) [] eq_refl eq_refl eq_refl eq_refl)).
Defined.

(* ===================================================================== *)
(** ** [send_audio]                                                       *)
(* ===================================================================== *)

Lemma int16_of_bytes_range (lo hi : byte) : is_int16 (int16_of_bytes lo hi).
Proof.
  unfold is_int16, int16_of_bytes.
  pose proof (Byte.to_N_bounded lo) as Hlo.
  pose proof (Byte.to_N_bounded hi) as Hhi.
  destruct (Z.ltb_spec (Z.of_N (Byte.to_N lo) + 256 * Z.of_N (Byte.to_N hi)) 32768);
    lia.
Qed.

(** [np.frombuffer(chunk, dtype=np.int16)] by the parity of the length. *)
Lemma frombuffer_int16_parity (n : nat) :
  forall chunk : list byte,
    (List.length chunk <= n)%nat ->
    if Nat.even (List.length chunk)
    then exists a, frombuffer_int16 chunk = Ok a /\
                   (2 * List.length a = List.length chunk)%nat /\
                   Forall is_int16 a
    else frombuffer_int16 chunk = Raise ValueError.
Proof.
  induction n as [|n IH]; intros chunk Hn.
  - destruct chunk; [|simpl in Hn; lia].
    exists []. repeat split. constructor.
  - destruct chunk as [|lo [|hi rest]].
    + exists []. repeat split. constructor.
    + reflexivity.
    + specialize (IH rest ltac:(simpl in Hn; lia)).
      change (Nat.even (List.length (lo :: hi :: rest)))
        with (Nat.even (List.length rest)).
      cbn [frombuffer_int16].
      destruct (Nat.even (List.length rest)).
      * destruct IH as (a & Ha & Hl & Hr). rewrite Ha.
        exists (int16_of_bytes lo hi :: a). split; [reflexivity|].
        split; [simpl; simpl in Hl; lia|].
        constructor; [apply int16_of_bytes_range | exact Hr].
      * rewrite IH. reflexivity.
Qed.

(** X2.  With linear PCM and no downsampling (none configured, or a
    factor of zero, which is falsy), [send_audio] never enqueues anything,
    and what it raises depends on the parity of the chunk's length: a chunk
    of an odd number of bytes raises [ValueError] at the conversion, before
    Redis is touched; a chunk of an even number of bytes is converted to an
    array, on which line 109 raises: the exception of the connection when
    the server cannot be reached, [DataError] otherwise.  The session is
    left as it was. *)
Theorem send_audio_linear16_by_parity `{Audioop} `{Redis} {B} (chunk : list byte)
    (s : session B) :
  audio_encoding (transcriber_config s) = LINEAR16 ->
  downsampling (transcriber_config s) = None \/
  downsampling (transcriber_config s) = Some 0 ->
  fst (send_audio chunk s) = s /\
  snd (send_audio chunk s) =
    if Nat.even (List.length chunk)
    then match redis_connect with
         | Raise e => Raise e
         | Ok _ => Raise DataError
         end
    else Raise ValueError.
Proof.
  intros Henc Hdown.
  assert (Hf : downsampling_factor (transcriber_config s) = None).
  { unfold downsampling_factor. destruct Hdown as [E|E]; rewrite E; reflexivity. }
  pose proof (frombuffer_int16_parity (List.length chunk) chunk (le_n _)) as Hp.
  unfold send_audio, convert_chunk.
  rewrite Henc, Hf.
  destruct (Nat.even (List.length chunk)).
  - destruct Hp as (a & Ha & _ & _). rewrite Ha, redis_publish_array.
    destruct redis_connect; split; reflexivity.
  - rewrite Hp. split; reflexivity.
Qed.

Lemma send_audio_linear16_by_parity_witness :
  @send_audio no_resampling redis_down unit [x00; x01; x02] s0
    = (s0, Raise ValueError) /\
  @send_audio no_resampling redis_down unit [x00; x01; x02; x03] s0
    = (s0, Raise RedisConnectionError) /\
  @send_audio no_resampling redis_up unit [x00; x01; x02; x03] s0
    = (s0, Raise DataError).
Proof.
  pose proof (@send_audio_linear16_by_parity no_resampling redis_down unit
                [x00; x01; x02] s0 eq_refl (or_introl eq_refl)) as [S1 E1].
  pose proof (@send_audio_linear16_by_parity no_resampling redis_down unit
                [x00; x01; x02; x03] s0 eq_refl (or_introl eq_refl)) as [S2 E2].
  pose proof (@send_audio_linear16_by_parity no_resampling redis_up unit
                [x00; x01; x02; x03] s0 eq_refl (or_introl eq_refl)) as [S3 E3].
  repeat split; apply injective_projections; assumption.
Defined.

(** X3.  [send_audio] returns in one case only: the encoding is mu-law,
    the Redis server can be reached and takes the message.  The caller's
    bytes are then published and enqueued unchanged, whatever the
    downsampling setting and whatever the resampler would do.  In every
    other case, with linear PCM in particular, the call raises and leaves
    the session as it was: nothing published, nothing enqueued. *)
Theorem send_audio_succeeds_only_for_mulaw (A : Audioop) (R : Redis) {B}
    (chunk : list byte) (s : session B) :
  (snd (@send_audio A R B chunk s) = Ok tt <->
   audio_encoding (transcriber_config s) = MULAW /\
   @redis_connect R = Ok tt /\ @redis_deliver R = Ok tt) /\
  (snd (@send_audio A R B chunk s) = Ok tt ->
   fst (@send_audio A R B chunk s) = put_nowait (Bytes chunk) (publish (Bytes chunk) s)) /\
  (snd (@send_audio A R B chunk s) <> Ok tt ->
   fst (@send_audio A R B chunk s) = s).
Proof.
  destruct (audio_encoding (transcriber_config s)) eqn:Henc.
  - destruct (@send_audio_linear16_raises A R B chunk s Henc) as [Hs Hr].
    rewrite Hs.
    destruct (snd (@send_audio A R B chunk s)) as [u|e]; [discriminate|].
    split; [split; [discriminate | intros (E & _); discriminate]|].
    split; [discriminate | reflexivity].
  - unfold send_audio, convert_chunk, redis_publish, base_send_audio.
    rewrite Henc.
    destruct (@redis_connect R) as [[]|e]; [destruct (@redis_deliver R) as [[]|e]|];
      cbn [fst snd].
    + split; [split; [intros _; repeat split | reflexivity]|].
      split; [reflexivity | intros Hn; contradiction Hn; reflexivity].
    + split; [split; [discriminate | intros (_ & _ & E); discriminate]|].
      split; [discriminate | reflexivity].
    + split; [split; [discriminate | intros (_ & E & _); discriminate]|].
      split; [discriminate | reflexivity].
Qed.

Lemma send_audio_succeeds_only_for_mulaw_witness :
  input_queue
    (fst (@send_audio failing_resampling redis_up unit [x00; x01; x02]
            (new_session cfg_mulaw tt))) = [Bytes [x00; x01; x02]].
Proof.
  rewrite (proj1 (proj2 (send_audio_succeeds_only_for_mulaw failing_resampling
                           redis_up [x00; x01; x02] (new_session cfg_mulaw tt)))
             eq_refl).
  reflexivity.
Defined.

(* ===================================================================== *)
(** ** The receiver                                                       *)
(* ===================================================================== *)

(** X8.  The receiver looks at nothing after the event that makes it
    leave its loop: after a receive error, a message without ["is_final"] or
    a message that cannot be decoded, whatever else the connection would
    deliver changes neither the transcriptions emitted, nor the samples
    recorded, nor the result. *)
Theorem receiver_ignores_events_after_stop (cfg : DeepgramTranscriberConfig)
    (ended : bool) (cursor : float) (e : recv_event) (post : list recv_event) :
  stops_receiver e = true ->
  forall (pre : list recv_event) (l : receiver_locals),
    receiver_loop cfg ended cursor (pre ++ e :: post) l =
    receiver_loop cfg ended cursor (pre ++ [e]) l.
Proof.
  intros He. induction pre as [|x pre IH]; intros l.
  - destruct ended; [reflexivity|].
    destruct e as [|[| | |f]]; try discriminate; reflexivity.
  - destruct ended; [reflexivity|].
    destruct x as [|[| | |f]]; try reflexivity.
    cbn [app receiver_loop].
    destruct (handle_frame cfg _ f) as [[l' out]|err]; [|reflexivity].
    rewrite IH. reflexivity.
Qed.

Lemma receiver_ignores_events_after_stop_witness :
  receiver cfg_default false 0%float
    [Message (Recognition hello_frame); Message NoIsFinal;
     Message (Recognition hello_frame)] =
  receiver cfg_default false 0%float
    [Message (Recognition hello_frame); Message NoIsFinal].
Proof.
  exact (receiver_ignores_events_after_stop cfg_default false 0%float
           (Message NoIsFinal) [Message (Recognition hello_frame)] eq_refl
           [Message (Recognition hello_frame)] receiver_init).
Defined.

Lemma max0_not_negative (x : float) : PrimFloat.ltb (max0 x) 0%float = false.
Proof.
  unfold max0, gt. destruct (PrimFloat.ltb x 0%float) eqn:E; [reflexivity | exact E].
Qed.

Lemma handle_frame_emits_at_most_one (cfg : DeepgramTranscriberConfig)
    (l l' : receiver_locals) (f : RecognitionFrame) (out : list Transcription.t) :
  handle_frame cfg l f = Ok (l', out) -> (List.length out <= 1)%nat.
Proof.
  unfold handle_frame.
  destruct (is_speech_final cfg (buffer l) f (time_silent l)) as [v|e]; [|discriminate].
  destruct (truthy v); [|destruct (has_speech f)];
    intros E; inversion E; subst; simpl; lia.
Qed.

(** X9.  The receiver records into the four histograms exactly once per
    frame it reaches, always in the order average latency, duration,
    maximum latency, minimum latency.  For every stream of events, when the
    frames at its head raise nothing, the records are four times the number
    of those frames, whatever follows them; there is at most one
    transcription per frame, and no minimum latency below zero.  A frame on
    which the policy raises has been recorded too: its four samples follow
    those of the frames before it, and nothing is emitted for it. *)
Theorem receiver_records_four_samples_per_frame (cfg : DeepgramTranscriberConfig)
    (cursor : float) :
  (forall (events : list recv_event) (l : receiver_locals),
     let frames := leading_frames events in
     receiver_result (receiver_loop cfg false cursor (recognitions frames) l) = Ok tt ->
     let o := receiver_loop cfg false cursor events l in
     List.map fst (recorded o) =
       List.concat (List.repeat frame_histograms (List.length frames)) /\
     (List.length (emitted o) <= List.length frames)%nat /\
     Forall (fun smp => fst smp = min_latency_hist ->
                        PrimFloat.ltb (snd smp) 0%float = false) (recorded o)) /\
  (forall (frames : list RecognitionFrame) (data : RecognitionFrame)
          (rest : list recv_event) (e : exn) (l : receiver_locals),
     let before := receiver_loop cfg false cursor (recognitions frames) l in
     receiver_result before = Ok tt ->
     is_speech_final cfg (buffer (final_locals before)) data
       (time_silent (final_locals before)) = Raise e ->
     let o := receiver_loop cfg false cursor
                (recognitions frames ++ Message (Recognition data) :: rest) l in
     recorded o =
       recorded before ++
       latency_samples cursor (transcript_cursor (final_locals before)) data /\
     emitted o = emitted before).
Proof.
  split.
  - induction events as [|x rest IH]; intros l; cbv zeta.
    + intros _. cbn [leading_frames receiver_loop receiver_stop recorded emitted
                     List.map List.length List.repeat List.concat].
      repeat split; [lia | constructor].
    + destruct x as [|[| | |f]];
        try (intros _;
             cbn [leading_frames receiver_loop receiver_stop recorded emitted
                  List.map List.length List.repeat List.concat];
             repeat split; [lia | constructor]).
      cbn [leading_frames recognitions List.map receiver_loop]. cbv zeta.
      set (l0 := with_transcript_cursor _ l).
      assert (Hmin : Forall (fun smp => fst smp = min_latency_hist ->
                                       PrimFloat.ltb (snd smp) 0%float = false)
                       (latency_samples cursor (transcript_cursor l) f)).
      { unfold latency_samples.
        repeat (constructor; [cbn [fst snd]; try discriminate|]).
        - intros _. apply max0_not_negative.
        - constructor. }
      destruct (handle_frame cfg l0 f) as [[l' out]|err] eqn:Hh;
        [|cbn [receiver_result]; discriminate].
      cbn [receiver_result recorded emitted]. intros Hres.
      destruct (IH l' Hres) as (Hn & Hem & Hf).
      split; [|split].
      * rewrite map_app. cbn [List.length List.repeat List.concat].
        apply f_equal2; [reflexivity | exact Hn].
      * rewrite length_app. cbn [List.length].
        pose proof (handle_frame_emits_at_most_one _ _ _ _ _ Hh). lia.
      * apply Forall_app. split; [exact Hmin | exact Hf].
  - induction frames as [|f frames IH]; intros data rest e l; cbv zeta.
    + cbn [recognitions List.map app receiver_loop receiver_stop final_locals
           recorded emitted].
      intros _ Hpol. unfold handle_frame.
      cbn [buffer time_silent with_transcript_cursor]. rewrite Hpol.
      split; reflexivity.
    + cbn [recognitions List.map app receiver_loop]. cbv zeta.
      destruct (handle_frame cfg _ f) as [[l' out]|err];
        [|cbn [receiver_result]; discriminate].
      cbn [receiver_result final_locals recorded emitted]. intros Hres Hpol.
      destruct (IH data rest e l' Hres Hpol) as [Hr Hem].
      unfold recognitions in Hr, Hem. rewrite Hr, Hem, app_assoc.
      split; reflexivity.
Qed.

Lemma receiver_records_four_samples_per_frame_witness :
  List.map fst
    (recorded
       (receiver cfg_default false 0%float
          [Message (Recognition hello_frame);
           Message (Recognition (silent_frame 2%float));
           Message NoIsFinal;
           Message (Recognition hello_frame)]))
  = frame_histograms ++ frame_histograms.
Proof.
  exact (proj1 (proj1 (receiver_records_four_samples_per_frame cfg_default 0%float)
                  [Message (Recognition hello_frame);
                   Message (Recognition (silent_frame 2%float));
                   Message NoIsFinal;
                   Message (Recognition hello_frame)]
                  receiver_init eq_refl)).
Defined.

Lemma accumulate_space_led (l : receiver_locals) (f : RecognitionFrame) :
  space_led (buffer l) -> space_led (buffer (accumulate l f)).
Proof.
  intros Hl. unfold accumulate.
  destruct (has_speech f && is_final f); [|exact Hl].
  cbn [buffer]. right.
  destruct Hl as [E|(rest & E)]; rewrite E.
  - exists (transcript f). reflexivity.
  - exists (rest ++ lit " " ++ transcript f). reflexivity.
Qed.

Lemma handle_frame_space_led (cfg : DeepgramTranscriberConfig)
    (l l' : receiver_locals) (f : RecognitionFrame) (out : list Transcription.t) :
  space_led (buffer l) ->
  handle_frame cfg l f = Ok (l', out) ->
  space_led (buffer l') /\ Forall (fun t => space_led (Transcription.message t)) out.
Proof.
  intros Hl. pose proof (accumulate_space_led l f Hl) as Ha.
  unfold handle_frame.
  destruct (is_speech_final cfg (buffer l) f (time_silent l)) as [v|e]; [|discriminate].
  destruct (truthy v); [|destruct (has_speech f)];
    intros E; inversion E; subst; cbn [buffer reset_buffer with_time_silent].
  - split; [left; reflexivity|]. constructor; [exact Ha | constructor].
  - split; [exact Ha|]. constructor; [exact Ha | constructor].
  - split; [exact Ha | constructor].
Qed.

(** X10.  Every message the receiver emits, and the buffer it ends with,
    is either empty or begins with a space, when the buffer it started with
    is: a fragment is always joined to the buffer by a space, also the first
    one. *)
Theorem emitted_messages_are_space_led (cfg : DeepgramTranscriberConfig)
    (ended : bool) (cursor : float) (inbound : list recv_event) :
  forall l : receiver_locals,
    space_led (buffer l) ->
    let o := receiver_loop cfg ended cursor inbound l in
    Forall (fun t => space_led (Transcription.message t)) (emitted o) /\
    space_led (buffer (final_locals o)).
Proof.
  induction inbound as [|x rest IH]; intros l Hl.
  - destruct ended; simpl; split; auto.
  - destruct ended; [simpl; split; auto|].
    destruct x as [|[| | |f]]; try (simpl; split; auto; fail).
    cbn [receiver_loop]. cbv zeta.
    set (l0 := with_transcript_cursor _ l).
    destruct (handle_frame cfg l0 f) as [[l' out]|err] eqn:Hh.
    + destruct (handle_frame_space_led cfg l0 l' f out Hl Hh) as [Hl' Hout].
      destruct (IH l' Hl') as [Hem Hfin].
      cbn [emitted final_locals]. split; [|exact Hfin].
      apply Forall_app. split; assumption.
    + cbn [emitted final_locals]. split; [constructor | exact Hl].
Qed.

Lemma emitted_messages_are_space_led_witness :
  Forall (fun t => space_led (Transcription.message t))
    (emitted (receiver cfg_default false 0%float [Message (Recognition hello_frame)])).
Proof.
  exact (proj1 (emitted_messages_are_space_led cfg_default false 0%float
                  [Message (Recognition hello_frame)] receiver_init
                  (or_introl eq_refl))).
Defined.

(** X11.  Under the default policy, a frame that carries a transcript
    and the [speech_final] flag but is not final, or has no positive
    confidence, makes the receiver emit a final transcription of the buffer
    as it stood: the frame's own transcript is in neither the message nor
    the confidence, and the buffer is reset. *)
Theorem unconfirmed_speech_final_drops_the_transcript
    (cfg : DeepgramTranscriberConfig) (l : receiver_locals) (data : RecognitionFrame) :
  endpointing_config cfg = None ->
  transcript data <> [] ->
  speech_final data = true ->
  is_final data = false \/ gt (confidence data) 0%float = false ->
  handle_frame cfg l data =
  Ok (reset_buffer l,
      [ {| Transcription.message := buffer l;
           Transcription.confidence := buffer_avg_confidence l;
           Transcription.is_final := true |} ]).
Proof.
  intros Hcfg Htr Hsf Hno.
  assert (Hacc : accumulate l data = l).
  { unfold accumulate, has_speech.
    destruct Hno as [E|E]; rewrite E;
      [rewrite andb_false_r | rewrite andb_false_r]; reflexivity. }
  unfold handle_frame, is_speech_final. rewrite Hcfg, Hsf, Hacc.
  destruct (transcript data) as [|c tr]; [congruence | reflexivity].
Qed.

Lemma unconfirmed_speech_final_drops_the_transcript_witness :
  emitted (receiver cfg_default false 0%float
             [Message (Recognition (frame_of "hello" 0.9%float false true))])
  = [ {| Transcription.message := [];
         Transcription.confidence := 0%float;
         Transcription.is_final := true |} ].
Proof.
  unfold receiver. cbn [receiver_loop]. cbv zeta.
  rewrite (unconfirmed_speech_final_drops_the_transcript cfg_default _
             (frame_of "hello" 0.9%float false true) eq_refl
             ltac:(discriminate) eq_refl (or_introl eq_refl)).
  reflexivity.
Defined.

Lemma handle_frame_transcript_cursor (cfg : DeepgramTranscriberConfig)
    (l l' : receiver_locals) (f : RecognitionFrame) (out : list Transcription.t) :
  handle_frame cfg l f = Ok (l', out) -> transcript_cursor l' = transcript_cursor l.
Proof.
  unfold handle_frame.
  assert (Ha : transcript_cursor (accumulate l f) = transcript_cursor l).
  { unfold accumulate. destruct (has_speech f && is_final f); reflexivity. }
  destruct (is_speech_final cfg (buffer l) f (time_silent l)) as [v|e]; [|discriminate].
  destruct (truthy v); [|destruct (has_speech f)];
    intros E; inversion E; subst; exact Ha.
Qed.

(** X12.  The transcript cursor is set, not accumulated: after a run
    of frames that raises nothing it is [start + duration] of the last
    frame, whatever the earlier frames and the emissions were. *)
Theorem transcript_cursor_is_the_last_frame_end (cfg : DeepgramTranscriberConfig)
    (cursor : float) (last : RecognitionFrame) (frames : list RecognitionFrame) :
  forall l : receiver_locals,
    let o := receiver_loop cfg false cursor (recognitions (frames ++ [last])) l in
    receiver_result o = Ok tt ->
    transcript_cursor (final_locals o) = PrimFloat.add (start last) (duration last).
Proof.
  induction frames as [|f frames IH]; intros l; cbv zeta.
  - cbn [app recognitions List.map receiver_loop]. cbv zeta.
    destruct (handle_frame cfg _ last) as [[l' out]|e] eqn:Hh.
    + intros _. cbn [final_locals receiver_stop].
      rewrite (handle_frame_transcript_cursor _ _ _ _ _ Hh). reflexivity.
    + cbn [receiver_result]. discriminate.
  - cbn [app recognitions List.map receiver_loop]. cbv zeta.
    destruct (handle_frame cfg _ f) as [[l' out]|e].
    + cbn [receiver_result final_locals]. apply IH.
    + cbn [receiver_result]. discriminate.
Qed.

Lemma transcript_cursor_is_the_last_frame_end_witness :
  transcript_cursor
    (final_locals
       (receiver_loop cfg_default false 0%float
          (recognitions ([hello_frame] ++ [frame_of "again" 0.9%float true false]))
          receiver_init)) = 1%float.
Proof.
  exact (transcript_cursor_is_the_last_frame_end cfg_default 0%float
           (frame_of "again" 0.9%float true false) [hello_frame] receiver_init
           eq_refl).
Defined.

Lemma handle_frame_silence (cfg : DeepgramTranscriberConfig) (l : receiver_locals)
    (f : RecognitionFrame) :
  endpointing_config cfg <> Some OtherEndpointingConfig ->
  buffer l = [] ->
  transcript f = [] ->
  handle_frame cfg l f =
  Ok (with_time_silent (PrimFloat.add (time_silent l) (duration f)) l, []).
Proof.
  intros Hcfg Hb Htr.
  assert (Hacc : accumulate l f = l).
  { unfold accumulate, has_speech. rewrite Htr. reflexivity. }
  unfold handle_frame, is_speech_final, silence_clause, has_speech.
  rewrite Hacc, Hb, Htr.
  destruct (endpointing_config cfg) as [[|c|c]|]; [congruence|..]; reflexivity.
Qed.

(** X13.  Under the default, the time-based and the punctuation-based
    policy alike, frames with an empty transcript that arrive while the
    buffer is empty emit nothing, however long the silence lasts: the buffer
    stays empty, its confidence and count stay as they were, and the
    accumulated silence grows by the duration of each frame. *)
Theorem silence_on_an_empty_buffer_emits_nothing (cfg : DeepgramTranscriberConfig)
    (cursor : float) (frames : list RecognitionFrame) :
  endpointing_config cfg <> Some OtherEndpointingConfig ->
  Forall (fun f => transcript f = []) frames ->
  forall l : receiver_locals,
    buffer l = [] ->
    let o := receiver_loop cfg false cursor (recognitions frames) l in
    receiver_result o = Ok tt /\
    emitted o = [] /\
    buffer (final_locals o) = [] /\
    buffer_avg_confidence (final_locals o) = buffer_avg_confidence l /\
    num_buffer_utterances (final_locals o) = num_buffer_utterances l /\
    time_silent (final_locals o) =
      fold_left (fun t f => PrimFloat.add t (duration f)) frames (time_silent l).
Proof.
  intros Hcfg Hall. induction Hall as [|f frames Hf Hall IH]; intros l Hb; cbv zeta.
  - cbn [recognitions List.map receiver_loop receiver_stop receiver_result emitted
         final_locals fold_left].
    repeat split; assumption || reflexivity.
  - cbn [recognitions List.map receiver_loop]. cbv zeta.
    rewrite (handle_frame_silence cfg
               (with_transcript_cursor (PrimFloat.add (start f) (duration f)) l)
               f Hcfg Hb Hf).
    cbn [receiver_result emitted final_locals app fold_left].
    apply (IH (with_time_silent _ (with_transcript_cursor _ l))). exact Hb.
Qed.

Lemma silence_on_an_empty_buffer_emits_nothing_witness :
  emitted (receiver_loop (cfg_time 1%float) false 0%float
             (recognitions [silent_frame 2%float; silent_frame 3%float])
             receiver_init) = [].
Proof.
  exact (proj1 (proj2
           (silence_on_an_empty_buffer_emits_nothing (cfg_time 1%float) 0%float
              [silent_frame 2%float; silent_frame 3%float]
              ltac:(discriminate) ltac:(repeat constructor)
              receiver_init eq_refl))).
Defined.

(** X15.  An exception of the endpointing policy ends the receiver at
    the frame that caused it: the receiver raises that exception, emits no
    transcription for that frame and looks at no later event, so that it has
    emitted exactly what the earlier frames made it emit. *)
Theorem policy_exception_ends_the_receiver (cfg : DeepgramTranscriberConfig)
    (cursor : float) (f : RecognitionFrame) (rest : list recv_event) (e : exn) :
  forall (pre : list RecognitionFrame) (l : receiver_locals),
    let before := receiver_loop cfg false cursor (recognitions pre) l in
    receiver_result before = Ok tt ->
    is_speech_final cfg (buffer (final_locals before)) f
      (time_silent (final_locals before)) = Raise e ->
    let o := receiver_loop cfg false cursor
               (recognitions pre ++ Message (Recognition f) :: rest) l in
    receiver_result o = Raise e /\ emitted o = emitted before.
Proof.
  induction pre as [|x pre IH]; intros l; cbv zeta.
  - cbn [recognitions List.map app receiver_loop receiver_stop final_locals emitted].
    intros _ Hpol. unfold handle_frame.
    cbn [buffer time_silent with_transcript_cursor]. rewrite Hpol.
    split; reflexivity.
  - cbn [recognitions List.map app receiver_loop]. cbv zeta.
    destruct (handle_frame cfg _ x) as [[l' out]|err].
    + cbn [receiver_result final_locals emitted]. intros Hres Hpol.
      destruct (IH l' Hres Hpol) as [Hr Hem].
      split; [exact Hr|]. unfold recognitions in Hem. rewrite Hem. reflexivity.
    + cbn [receiver_result]. discriminate.
Qed.

Lemma policy_exception_ends_the_receiver_witness :
  receiver_result
    (receiver_loop (cfg_punctuation 1%float) false 0%float
       (recognitions [frame_of "so" 0.9%float true false]
          ++ Message (Recognition blank_frame) :: [Message (Recognition hello_frame)])
       receiver_init) = Raise IndexError.
Proof.
  exact (proj1 (policy_exception_ends_the_receiver (cfg_punctuation 1%float) 0%float
                  blank_frame [Message (Recognition hello_frame)] IndexError
                  [frame_of "so" 0.9%float true false] receiver_init
                  eq_refl eq_refl)).
Defined.

(* ===================================================================== *)
(** ** The run loop                                                       *)
(* ===================================================================== *)

(** X17.  An exception the endpointing policy raises on the first
    frame of the first connection comes out of the run loop unchanged: one
    connection has been opened, nothing has been put on the output queue and
    no further attempt is made. *)
Theorem policy_exception_ends_the_run {B} `{BaseAsyncTranscriber B}
    (world : nat -> attempt) (s : session B) (f : RecognitionFrame)
    (rest : list recv_event) (e : exn) :
  _ended s = false ->
  0 < sampling_rate (transcriber_config s) ->
  connect_ok (world 0%nat) = true ->
  send_failure (world 0%nat) = None ->
  inbound (world 0%nat) = Message (Recognition f) :: rest ->
  is_speech_final (transcriber_config s) [] f 0%float = Raise e ->
  snd (_run_loop world s) = Raise e /\
  connect_calls (fst (_run_loop world s)) = S (connect_calls s) /\
  output_queue (fst (_run_loop world s)) = output_queue s.
Proof.
  intros He Hrate Hc Hf Hin Hpol. unfold _run_loop.
  rewrite run_loop_from_while, He.
  change (negb false && (0 <? NUM_RESTARTS)%nat) with true. cbv iota.
  unfold process. rewrite Hc, Hf, He, Hin.
  unfold sender. rewrite sender_loop_drains by lia.
  unfold receiver. cbn [receiver_loop]. cbv zeta.
  unfold handle_frame.
  cbn [buffer time_silent with_transcript_cursor receiver_init]. rewrite Hpol.
  cbn [sender_result receiver_result gather emitted fst snd connect_calls
       output_queue].
  rewrite app_nil_r. repeat split; reflexivity.
Qed.

Lemma policy_exception_ends_the_run_witness :
  snd (_run_loop (fun _ => answers_blank) s0_punctuation) = Raise IndexError.
Proof.
  exact (proj1 (policy_exception_ends_the_run (fun _ => answers_blank) s0_punctuation
                  blank_frame [] IndexError
                  eq_refl eq_refl eq_refl eq_refl eq_refl eq_refl)).
Defined.

Lemma sender_loop_ended (cfg : DeepgramTranscriberConfig) (send_failure : option nat)
    (k : nat) (queue : list queue_item) (cursor : float) :
  sender_loop cfg true send_failure k queue cursor =
  {| cursor_after := cursor; queue_after := queue; sent := [];
     sender_result := Ok tt |}.
Proof. destruct queue; reflexivity. Qed.

Lemma receiver_loop_ended (cfg : DeepgramTranscriberConfig) (cursor : float)
    (inbound : list recv_event) (l : receiver_locals) :
  receiver_loop cfg true cursor inbound l = receiver_stop l (Ok tt).
Proof. destruct inbound; reflexivity. Qed.

(** X18.  After [terminate] the run loop returns at once without
    opening a connection; and an attempt made on a terminated session sends
    nothing, emits nothing and records nothing, so that the close-stream
    message [terminate] has enqueued stays in the input queue, unsent. *)
Theorem terminated_session_is_left_alone {B} `{BaseAsyncTranscriber B}
    (world : nat -> attempt) (w : attempt) (s : session B) :
  _run_loop world (terminate s) = (terminate s, Ok tt) /\
  input_queue (fst (process w (terminate s))) = input_queue s ++ [Text terminate_msg] /\
  wire_sent (fst (process w (terminate s))) = wire_sent s /\
  output_queue (fst (process w (terminate s))) = output_queue s /\
  histograms (fst (process w (terminate s))) = histograms s.
Proof.
  split.
  - apply run_loop_from_ended. reflexivity.
  - unfold process, sender, receiver.
    change (_ended (terminate s)) with true.
    rewrite sender_loop_ended, receiver_loop_ended.
    destruct (connect_ok w);
      cbn [fst input_queue wire_sent output_queue histograms queue_after sent
           emitted recorded receiver_stop];
      rewrite ?app_nil_r; repeat split; reflexivity.
Qed.

(** X19.  The run loop ends at the first attempt that raises, with
    that attempt's exception and state: when the attempts before the
    [k]-th all return with the flag unset and the [k]-th raises, the loop
    raises the same exception after [k + 1] connections. *)
Theorem run_loop_raises_the_first_exception {B} `{BaseAsyncTranscriber B}
    (world : nat -> attempt) (s : session B) (k : nat) (e : exn) :
  (k < NUM_RESTARTS)%nat ->
  (forall j, (j < k)%nat ->
     _ended (session_after world j s) = false /\
     snd (process (world j) (session_after world j s)) = Ok tt) ->
  _ended (session_after world k s) = false ->
  snd (process (world k) (session_after world k s)) = Raise e ->
  _run_loop world s = (fst (process (world k) (session_after world k s)), Raise e) /\
  connect_calls (fst (_run_loop world s)) = (connect_calls s + k + 1)%nat.
Proof.
  intros Hk Hrun He Hp.
  assert (Hloop : _run_loop world s =
                  (fst (process (world k) (session_after world k s)), Raise e)).
  { unfold _run_loop.
    change (run_loop_from world 0 s)
      with (run_loop_from world 0 (session_after world 0 s)).
    rewrite (run_loop_from_prefix world s k ltac:(lia) Hrun k 0%nat eq_refl).
    rewrite run_loop_from_while, He, (proj2 (Nat.ltb_lt k NUM_RESTARTS) Hk).
    cbn [negb andb].
    destruct (process (world k) (session_after world k s)) as [s' r].
    cbn [snd] in Hp. subst r. reflexivity. }
  split; [exact Hloop|]. rewrite Hloop. cbn [fst].
  rewrite process_connect_calls, session_after_connect_calls. lia.
Qed.

Lemma run_loop_raises_the_first_exception_witness :
  snd (_run_loop dropped_then_refused s0) = Raise ConnectFailed /\
  connect_calls (fst (_run_loop dropped_then_refused s0)) = 2%nat.
Proof.
  destruct (run_loop_raises_the_first_exception dropped_then_refused s0 1%nat
              ConnectFailed) as [Hloop Hcalls].
  - unfold NUM_RESTARTS. lia.
  - intros j Hj. destruct j as [|j]; [split; reflexivity | lia].
  - reflexivity.
  - reflexivity.
  - split; [rewrite Hloop; reflexivity | exact Hcalls].
Defined.

(** X20.  The run loop stops at the first iteration that finds the
    termination flag set: when the attempts before the [k]-th all return and
    the flag is set when the [k]-th would start, the loop returns without
    raising after exactly [k] connections. *)
Theorem run_loop_stops_at_the_flag {B} `{BaseAsyncTranscriber B}
    (world : nat -> attempt) (s : session B) (k : nat) :
  (k <= NUM_RESTARTS)%nat ->
  (forall j, (j < k)%nat ->
     _ended (session_after world j s) = false /\
     snd (process (world j) (session_after world j s)) = Ok tt) ->
  _ended (session_after world k s) = true ->
  _run_loop world s = (session_after world k s, Ok tt) /\
  connect_calls (fst (_run_loop world s)) = (connect_calls s + k)%nat.
Proof.
  intros Hk Hrun He.
  assert (Hloop : _run_loop world s = (session_after world k s, Ok tt)).
  { unfold _run_loop.
    change (run_loop_from world 0 s)
      with (run_loop_from world 0 (session_after world 0 s)).
    rewrite (run_loop_from_prefix world s k Hk Hrun k 0%nat eq_refl).
    apply run_loop_from_ended. exact He. }
  split; [exact Hloop|]. rewrite Hloop. cbn [fst].
  apply session_after_connect_calls.
Qed.

Lemma run_loop_stops_at_the_flag_witness :
  connect_calls (fst (_run_loop terminates_after_two s0)) = 2%nat.
Proof.
  refine (proj2 (run_loop_stops_at_the_flag terminates_after_two s0 2%nat _ _ _)).
  - unfold NUM_RESTARTS. lia.
  - intros j Hj. destruct j as [|[|j]]; [split; reflexivity | split; reflexivity | lia].
  - reflexivity.
Defined.

Lemma grown_from_refl {A} (l : list A) : grown_from l l.
Proof. exists []. rewrite app_nil_r. reflexivity. Qed.

Lemma grown_from_app {A} (l more : list A) : grown_from l (l ++ more).
Proof. exists more. reflexivity. Qed.

Lemma grown_from_trans {A} (a b c : list A) :
  grown_from a b -> grown_from b c -> grown_from a c.
Proof.
  intros [m1 E1] [m2 E2]. exists (m1 ++ m2). rewrite E2, E1, app_assoc. reflexivity.
Qed.

Lemma only_appended_refl {B} (s : session B) : only_appended s s.
Proof. repeat split; apply grown_from_refl. Qed.

Lemma only_appended_trans {B} (a b c : session B) :
  only_appended a b -> only_appended b c -> only_appended a c.
Proof.
  intros (O1 & W1 & H1 & P1 & C1) (O2 & W2 & H2 & P2 & C2).
  repeat split; try (eapply grown_from_trans; eassumption); congruence.
Qed.

Lemma process_only_appends {B} (w : attempt) (s : session B) :
  only_appended s (fst (process w s)).
Proof.
  unfold process. destruct (connect_ok w); cbn [fst].
  - repeat split; cbn [output_queue wire_sent histograms]; apply grown_from_app.
  - repeat split; cbn [output_queue wire_sent histograms]; apply grown_from_refl.
Qed.

Lemma client_step_only_appends {B} `{BaseAsyncTranscriber B} (w : attempt)
    (s : session B) :
  only_appended s (client_step w s).
Proof.
  unfold client_step. destruct (client_terminates w); [|apply only_appended_refl].
  repeat split; apply grown_from_refl.
Qed.

Lemma run_loop_from_only_appends {B} `{BaseAsyncTranscriber B} (world : nat -> attempt) :
  forall (n restarts : nat) (s : session B),
    (NUM_RESTARTS - restarts = n)%nat ->
    only_appended s (fst (run_loop_from world restarts s)).
Proof.
  induction n as [|n IH]; intros restarts s Hn; rewrite run_loop_from_while.
  - destruct (Nat.ltb_spec restarts NUM_RESTARTS) as [Hlt|Hge]; [lia|].
    rewrite andb_false_r. apply only_appended_refl.
  - destruct (negb (_ended s) && (restarts <? NUM_RESTARTS)%nat) eqn:Hgo;
      [|apply only_appended_refl].
    apply andb_true_iff in Hgo. destruct Hgo as [_ Hlt].
    apply Nat.ltb_lt in Hlt.
    pose proof (process_only_appends (world restarts) s) as Hp.
    destruct (process (world restarts) s) as [s' [u|e]]; cbn [fst] in Hp |- *.
    + eapply only_appended_trans; [exact Hp|].
      eapply only_appended_trans; [apply (client_step_only_appends (world restarts))|].
      apply IH. lia.
    + exact Hp.
Qed.

(** X21.  Whatever happens during a run, and also when it raises, the
    run loop only appends to the output queue, to the messages sent and to
    the histogram records, and leaves the published stream and the
    configuration as they were. *)
Theorem run_loop_only_appends {B} `{BaseAsyncTranscriber B} (world : nat -> attempt)
    (s : session B) :
  only_appended s (fst (_run_loop world s)).
Proof. apply (run_loop_from_only_appends world NUM_RESTARTS 0%nat s). reflexivity. Qed.

(* ===================================================================== *)
(** ** Construction                                                       *)
(* ===================================================================== *)

(** X1.  Construction succeeds exactly when the [api_key] argument or the
    environment gives a non-empty key.  A non-empty argument is the key
    kept, whatever the environment holds; a missing or empty argument falls
    back to the environment; with neither, [__init__] raises the exception
    that asks for [DEEPGRAM_API_KEY]. *)
Theorem init_needs_an_api_key {B} (cfg : DeepgramTranscriberConfig)
    (api_key getenv_key : option str) (b : B) :
  (is_ok (__init__ cfg api_key getenv_key b) = true <->
   opt_truthy api_key = true \/ opt_truthy getenv_key = true) /\
  (opt_truthy api_key = true ->
   __init__ cfg api_key getenv_key b = Ok (api_key, new_session cfg b)) /\
  (opt_truthy api_key = false -> opt_truthy getenv_key = true ->
   __init__ cfg api_key getenv_key b = Ok (getenv_key, new_session cfg b)) /\
  (opt_truthy api_key = false -> opt_truthy getenv_key = false ->
   __init__ cfg api_key getenv_key b = Raise (Exception api_key_missing)).
Proof.
  unfold __init__.
  destruct (opt_truthy api_key) eqn:Ha.
  - rewrite Ha. cbn [negb is_ok].
    repeat split; try discriminate; auto.
  - destruct (opt_truthy getenv_key) eqn:Hg; cbn [negb is_ok].
    + repeat split; try discriminate; auto.
    + repeat split; try discriminate; auto.
      intros [E|E]; discriminate.
Qed.

(* ===================================================================== *)
(** ** The buffer                                                         *)
(* ===================================================================== *)

Lemma handle_frame_keeps_buffer (cfg : DeepgramTranscriberConfig)
    (l l' : receiver_locals) (f : RecognitionFrame) (out : list Transcription.t) :
  handle_frame cfg l f = Ok (l', out) ->
  forallb (fun t => negb (Transcription.is_final t)) out = true ->
  buffer l' = buffer l ++ joined_fragments [f] /\
  Forall (fun t => Transcription.message t = buffer l') out.
Proof.
  unfold handle_frame. intros Hh Hout.
  assert (Ha : buffer (accumulate l f) = buffer l ++ joined_fragments [f]).
  { unfold accumulate, joined_fragments. cbn [List.filter].
    destruct (has_speech f && is_final f); cbn [buffer flat_map].
    - rewrite app_nil_r. reflexivity.
    - rewrite app_nil_r. reflexivity. }
  destruct (is_speech_final cfg (buffer l) f (time_silent l)) as [v|e]; [|discriminate].
  destruct (truthy v).
  - inversion Hh; subst. discriminate.
  - destruct (has_speech f); inversion Hh; subst;
      cbn [buffer with_time_silent]; (split; [exact Ha|]);
      repeat constructor.
Qed.

Lemma joined_fragments_cons (f : RecognitionFrame) (fs : list RecognitionFrame) :
  joined_fragments (f :: fs) = joined_fragments [f] ++ joined_fragments fs.
Proof.
  unfold joined_fragments. cbn [List.filter].
  destruct (has_speech f && is_final f); cbn [flat_map]; rewrite ?app_nil_r;
    reflexivity.
Qed.

(** X14.  As long as no frame makes the policy finalize, the buffer
    the receiver ends with is the buffer it started with followed, in
    arrival order, by a space and the transcript of each final frame that
    has a transcript and a positive confidence; the other frames add
    nothing. *)
Theorem buffer_joins_fragments_in_order (cfg : DeepgramTranscriberConfig)
    (cursor : float) (frames : list RecognitionFrame) :
  forall l : receiver_locals,
    let o := receiver_loop cfg false cursor (recognitions frames) l in
    receiver_result o = Ok tt ->
    forallb (fun t => negb (Transcription.is_final t)) (emitted o) = true ->
    buffer (final_locals o) = buffer l ++ joined_fragments frames.
Proof.
  induction frames as [|f fs IH]; intros l; cbv zeta.
  - intros _ _. cbn [recognitions List.map receiver_loop receiver_stop final_locals].
    unfold joined_fragments. cbn [List.filter flat_map]. rewrite app_nil_r. reflexivity.
  - cbn [recognitions List.map receiver_loop]. cbv zeta.
    destruct (handle_frame cfg _ f) as [[l' out]|e] eqn:Hh.
    + cbn [receiver_result emitted final_locals]. intros Hres Hem.
      rewrite forallb_app in Hem. apply andb_true_iff in Hem.
      destruct Hem as [Hout Hrest].
      destruct (handle_frame_keeps_buffer _ _ _ _ _ Hh Hout) as [Hb _].
      cbn [buffer with_transcript_cursor] in Hb.
      pose proof (IH l' Hres Hrest) as IH'. unfold recognitions in IH'.
      rewrite IH', Hb, (joined_fragments_cons f fs), <- app_assoc. reflexivity.
    + cbn [receiver_result]. discriminate.
Qed.

Lemma buffer_joins_fragments_in_order_witness :
  buffer
    (final_locals
       (receiver_loop cfg_default false 0%float
          (recognitions [frame_of "one" 0.9%float true false;
                         frame_of "two" 0.8%float false false;
                         frame_of "three" 0.7%float true false])
          receiver_init)) = lit " one three".
Proof.
  exact (buffer_joins_fragments_in_order cfg_default 0%float
           [frame_of "one" 0.9%float true false;
            frame_of "two" 0.8%float false false;
            frame_of "three" 0.7%float true false]
           receiver_init eq_refl eq_refl).
Defined.

(* ===================================================================== *)
(** ** The endpointing policy                                             *)
(* ===================================================================== *)

Lemma no_last_char_is_blank (s : str) :
  last_non_space s = None -> forallb isspace s = true.
Proof.
  induction s as [|c s IH]; simpl; [reflexivity|].
  destruct (last_non_space s); [discriminate|].
  destruct (isspace c); [|discriminate].
  intros _. apply IH. reflexivity.
Qed.

(** X16.  The punctuation-based policy raises in one case only, and
    then always [IndexError]: the frame's transcript is non-empty, its
    [speech_final] flag is set and the transcript is made of whitespace
    alone.  On every other frame it returns. *)
Theorem punctuation_policy_raises_only_on_blanks (cfg : DeepgramTranscriberConfig)
    (cutoff : float) (buffer_text : str) (frame : RecognitionFrame) (silence : float) :
  endpointing_config cfg = Some (PunctuationEndpointingConfig cutoff) ->
  forall e : exn,
    is_speech_final cfg buffer_text frame silence = Raise e <->
    e = IndexError /\
    transcript frame <> [] /\ speech_final frame = true /\
    forallb isspace (transcript frame) = true.
Proof.
  intros Hcfg e. split.
  - intros Hr.
    assert (Hacc : policy_accepts cfg frame = false).
    { destruct (policy_accepts cfg frame) eqn:E; [|reflexivity].
      pose proof (policy_accepts_ok cfg frame buffer_text silence E) as Hok.
      rewrite Hr in Hok. discriminate. }
    unfold policy_accepts in Hacc. rewrite Hcfg in Hacc.
    destruct (transcript frame) as [|c tr] eqn:Htr; [discriminate|].
    destruct (speech_final frame) eqn:Hsf; [|discriminate].
    cbn [negb orb] in Hacc.
    destruct (last_non_space (c :: tr)) eqn:Hl; [discriminate|].
    assert (Hraise : is_speech_final cfg buffer_text frame silence = Raise IndexError).
    { unfold is_speech_final. rewrite Hcfg, Hsf, Htr.
      rewrite punctuation_clause, Hl. reflexivity. }
    rewrite Hraise in Hr. inversion Hr; subst e.
    split; [reflexivity|]. split; [discriminate|]. split; [reflexivity|].
    apply no_last_char_is_blank. exact Hl.
  - intros (He & Hne & Hsf & Hblank). subst e.
    unfold is_speech_final. rewrite Hcfg, Hsf.
    rewrite punctuation_clause, (blank_has_no_last_char _ Hblank).
    destruct (transcript frame); [congruence | reflexivity].
Qed.

Lemma punctuation_policy_raises_only_on_blanks_witness :
  is_speech_final (cfg_punctuation 1%float) [] blank_frame 0%float = Raise IndexError.
Proof.
  apply (proj2 (punctuation_policy_raises_only_on_blanks (cfg_punctuation 1%float)
                  1%float [] blank_frame 0%float eq_refl IndexError)).
  split; [reflexivity|]. split; [discriminate|]. split; reflexivity.
Defined.

(* ===================================================================== *)
(** ** Interim and final transcriptions                                   *)
(* ===================================================================== *)

(** X22.  A frame with a transcript and a positive confidence on which
    the policy returns without finalizing makes the receiver emit exactly
    one interim transcription, whose message is the whole buffer and whose
    confidence is the frame's own; the accumulated silence is then replaced,
    not increased: it becomes the frame's duration when the frame has no
    words, and otherwise the time from the end of its last word to
    [start + duration], whatever the earlier words are. *)
Theorem interim_frame_restarts_the_silence (cfg : DeepgramTranscriberConfig)
    (l : receiver_locals) (data : RecognitionFrame) :
  finalizes (is_speech_final cfg (buffer l) data (time_silent l)) = false ->
  is_ok (is_speech_final cfg (buffer l) data (time_silent l)) = true ->
  has_speech data = true ->
  exists l',
    handle_frame cfg l data =
      Ok (l', [ {| Transcription.message := buffer l';
                   Transcription.confidence := confidence data;
                   Transcription.is_final := false |} ]) /\
    time_silent l' = calculate_time_silent data /\
    (words data = [] -> time_silent l' = duration data) /\
    (forall ws w, words data = ws ++ [w] ->
       time_silent l' =
         PrimFloat.sub (PrimFloat.add (start data) (duration data)) (word_end w)).
Proof.
  intros Hno Hok Hsp. unfold handle_frame.
  destruct (is_speech_final cfg (buffer l) data (time_silent l)) as [v|e];
    [|discriminate].
  cbn [finalizes] in Hno. rewrite Hno, Hsp.
  exists (with_time_silent (calculate_time_silent data) (accumulate l data)).
  split; [reflexivity|]. split; [reflexivity|].
  cbn [time_silent with_time_silent]. unfold calculate_time_silent. split.
  - intros Hw. rewrite Hw. reflexivity.
  - intros ws w Hw. rewrite Hw, rev_app_distr. reflexivity.
Qed.

Lemma interim_frame_restarts_the_silence_witness :
  exists l',
    handle_frame cfg_default receiver_init interim_frame =
      Ok (l', [ {| Transcription.message := buffer l';
                   Transcription.confidence := 0.5%float;
                   Transcription.is_final := false |} ]) /\
    time_silent l' = 0.25%float.
Proof.
  destruct (interim_frame_restarts_the_silence cfg_default receiver_init interim_frame
              eq_refl eq_refl eq_refl) as (l' & Hh & _ & _ & Hw).
  exists l'. split; [exact Hh|].
  rewrite (Hw [ {| word_end := 0.25%float |} ] {| word_end := 0.75%float |} eq_refl).
  reflexivity.
Defined.

(** Processing a run of frames and then more events is processing the
    run, then the events from the state reached. *)
Lemma receiver_loop_app (cfg : DeepgramTranscriberConfig) (cursor : float)
    (rest : list recv_event) :
  forall (pre : list RecognitionFrame) (l : receiver_locals),
    let before := receiver_loop cfg false cursor (recognitions pre) l in
    receiver_result before = Ok tt ->
    let after := receiver_loop cfg false cursor rest (final_locals before) in
    receiver_loop cfg false cursor (recognitions pre ++ rest) l =
    {| final_locals := final_locals after;
       recorded := recorded before ++ recorded after;
       emitted := emitted before ++ emitted after;
       receiver_result := receiver_result after |}.
Proof.
  induction pre as [|f pre IH]; intros l; cbv zeta.
  - intros _. cbn [recognitions List.map app receiver_loop receiver_stop
                   final_locals recorded emitted].
    destruct (receiver_loop cfg false cursor rest l). reflexivity.
  - cbn [recognitions List.map app receiver_loop]. cbv zeta.
    destruct (handle_frame cfg _ f) as [[l' out]|e].
    + cbn [receiver_result final_locals recorded emitted]. intros Hres.
      pose proof (IH l' Hres) as IH'. unfold recognitions in IH'.
      rewrite IH'. cbn [final_locals recorded emitted receiver_result].
      rewrite <- !app_assoc. reflexivity.
    + cbn [receiver_result]. discriminate.
Qed.

Lemma joined_fragments_app (a b : list RecognitionFrame) :
  joined_fragments (a ++ b) = joined_fragments a ++ joined_fragments b.
Proof.
  unfold joined_fragments. rewrite filter_app, flat_map_app. reflexivity.
Qed.

Lemma fragment_confidences_app (a b : list RecognitionFrame) :
  fragment_confidences (a ++ b) = fragment_confidences a ++ fragment_confidences b.
Proof.
  unfold fragment_confidences. rewrite filter_app, map_app. reflexivity.
Qed.

(** What a run of frames without a finalize leaves in the buffer, its
    confidence and its count. *)
Lemma receiver_loop_accumulates (cfg : DeepgramTranscriberConfig) (cursor : float)
    (frames : list RecognitionFrame) :
  forall l : receiver_locals,
    let o := receiver_loop cfg false cursor (recognitions frames) l in
    receiver_result o = Ok tt ->
    forallb (fun t => negb (Transcription.is_final t)) (emitted o) = true ->
    buffer (final_locals o) = buffer l ++ joined_fragments frames /\
    (buffer_avg_confidence (final_locals o), num_buffer_utterances (final_locals o)) =
    weighted_confidence (buffer_avg_confidence l) (num_buffer_utterances l)
      (fragment_confidences frames).
Proof.
  induction frames as [|f fs IH]; intros l; cbv zeta.
  - intros _ _. cbn [recognitions List.map receiver_loop receiver_stop final_locals].
    unfold joined_fragments. cbn [List.filter flat_map]. rewrite app_nil_r.
    split; reflexivity.
  - cbn [recognitions List.map receiver_loop]. cbv zeta.
    destruct (handle_frame cfg _ f) as [[l' out]|e] eqn:Hh.
    + cbn [receiver_result emitted final_locals]. intros Hres Hem.
      rewrite forallb_app in Hem. apply andb_true_iff in Hem.
      destruct Hem as [Hout Hrest].
      destruct (handle_frame_keeps_buffer _ _ _ _ _ Hh Hout) as [Hb _].
      destruct (handle_frame_without_finalize _ _ _ _ _ Hh Hout) as [Ha Hn].
      pose proof (accumulate_confidence
                    (with_transcript_cursor (PrimFloat.add (start f) (duration f)) l) f)
        as Hacc.
      cbn [buffer buffer_avg_confidence num_buffer_utterances with_transcript_cursor]
        in Hb, Hacc.
      pose proof (IH l' Hres Hrest) as [IHb IHc]. unfold recognitions in IHb, IHc.
      split.
      * rewrite IHb, Hb, (joined_fragments_cons f fs), <- app_assoc. reflexivity.
      * rewrite IHc, (fragment_confidences_cons f fs), weighted_confidence_app.
        rewrite <- Hacc. cbn [fst snd]. rewrite Ha, Hn. reflexivity.
    + cbn [receiver_result]. discriminate.
Qed.

(** X23.  When a run of frames without a finalize is followed by a
    frame on which the policy finalizes, the receiver emits, after the
    interim transcriptions of the run, one final transcription: its message
    is the starting buffer followed by a space and the transcript of each
    final frame with speech, the finalizing frame included when it is one,
    and its confidence is what the formula yields from their confidences in
    order; the buffer, its confidence, its count and the silence are then
    reset. *)
Theorem final_transcription_sums_up_the_fragments (cfg : DeepgramTranscriberConfig)
    (cursor : float) (pre : list RecognitionFrame) (data : RecognitionFrame)
    (l : receiver_locals) :
  let before := receiver_loop cfg false cursor (recognitions pre) l in
  receiver_result before = Ok tt ->
  forallb (fun t => negb (Transcription.is_final t)) (emitted before) = true ->
  finalizes (is_speech_final cfg (buffer (final_locals before)) data
               (time_silent (final_locals before))) = true ->
  let o := receiver_loop cfg false cursor (recognitions (pre ++ [data])) l in
  emitted o =
    emitted before ++
    [ {| Transcription.message := buffer l ++ joined_fragments (pre ++ [data]);
         Transcription.confidence :=
           fst (weighted_confidence (buffer_avg_confidence l)
                  (num_buffer_utterances l) (fragment_confidences (pre ++ [data])));
         Transcription.is_final := true |} ] /\
  receiver_result o = Ok tt /\
  buffer (final_locals o) = [] /\
  buffer_avg_confidence (final_locals o) = 0%float /\
  num_buffer_utterances (final_locals o) = 1%positive /\
  time_silent (final_locals o) = 0%float.
Proof.
  cbv zeta. intros Hres Hem Hfin.
  destruct (receiver_loop_accumulates cfg cursor pre l Hres Hem) as [Hb Hc].
  assert (Hsplit : recognitions (pre ++ [data]) =
                   recognitions pre ++ [Message (Recognition data)]).
  { unfold recognitions. rewrite map_app. reflexivity. }
  rewrite Hsplit, (receiver_loop_app cfg cursor _ pre l Hres).
  cbn [emitted final_locals receiver_result].
  set (l1 := final_locals (receiver_loop cfg false cursor (recognitions pre) l)) in *.
  cbn [List.map receiver_loop]. cbv zeta. unfold handle_frame.
  cbn [buffer time_silent with_transcript_cursor].
  destruct (is_speech_final cfg (buffer l1) data (time_silent l1)) as [v|e];
    [|discriminate].
  cbn [finalizes] in Hfin. rewrite Hfin.
  cbn [emitted final_locals receiver_result receiver_stop app buffer
       buffer_avg_confidence num_buffer_utterances time_silent reset_buffer].
  split; [|repeat split; reflexivity].
  f_equal. f_equal.
  pose proof (accumulate_confidence
                (with_transcript_cursor (PrimFloat.add (start data) (duration data)) l1)
                data) as Hacc.
  cbn [buffer_avg_confidence num_buffer_utterances with_transcript_cursor] in Hacc.
  f_equal.
  - rewrite joined_fragments_app, app_assoc, <- Hb.
    unfold accumulate, joined_fragments. cbn [List.filter].
    destruct (has_speech data && is_final data); cbn [buffer flat_map with_transcript_cursor];
      rewrite ?app_nil_r; reflexivity.
  - rewrite fragment_confidences_app, weighted_confidence_app, <- Hc.
    cbn [fst snd]. rewrite <- Hacc. reflexivity.
Qed.

Lemma final_transcription_sums_up_the_fragments_witness :
  List.map Transcription.message
    (emitted
       (receiver_loop cfg_default false 0%float
          (recognitions ([frame_of "one" 0.9%float true false] ++
                         [frame_of "two." 0.8%float true true]))
          receiver_init))
  = [lit " one"; lit " one two."].
Proof.
  rewrite (proj1 (final_transcription_sums_up_the_fragments cfg_default 0%float
                    [frame_of "one" 0.9%float true false]
                    (frame_of "two." 0.8%float true true) receiver_init
                    eq_refl eq_refl eq_refl)).
  reflexivity.
Defined.
